(** * Expense tracking: the merge / classify pipeline and the extraction ladder

    A shallow embedding of [src/merge_transactions.py] (source adapters,
    [apply_labels], [merge_all_csvs]) and of
    [src/extract_chase_transactions.py] ([try_fix_truncated_json],
    [extract_transactions_from_pdf]).

    Conventions of the model.
    - Text is [string]; the model covers ASCII text, on which Python's
      [str.upper] only moves [a-z] to [A-Z].
    - A pandas object column may hold a missing value (NaN): such cells are
      [option string], with [None] for NaN.
    - Amounts are IEEE binary64 numbers, as in a pandas float64 column; a
      missing amount is the float NaN.
    - A DataFrame is the list of its rows, in index order. *)

From Stdlib Require Import String Ascii List Bool Arith ZArith Lia.
From Stdlib Require Import Permutation Sorted.
From Stdlib Require Import Floats.PrimFloat.
From Equations Require Import Equations.
Import ListNotations.

#[local] Set Warnings "-inexact-float,-register-all".
#[local] Open Scope string_scope.

(* ===================================================================== *)
(** ** Text primitives *)
(* ===================================================================== *)

Module Text.

(** [c.upper()] on an ASCII character. *)
Definition upper_char (c : ascii) : ascii :=
  let n := nat_of_ascii c in
  if ((97 <=? n) && (n <=? 122))%nat then ascii_of_nat (n - 32) else c.

(** [s.upper()]. *)
Fixpoint upper (s : string) : string :=
  match s with
  | EmptyString => EmptyString
  | String c s' => String (upper_char c) (upper s')
  end.

(** [s.startswith(p)]. *)
Fixpoint startswith (p s : string) : bool :=
  match p, s with
  | EmptyString, _ => true
  | String _ _, EmptyString => false
  | String a p', String b s' => Ascii.eqb a b && startswith p' s'
  end.

(** [p in s]: literal substring containment. *)
Fixpoint str_in (p s : string) : bool :=
  startswith p s ||
  match s with
  | EmptyString => false
  | String _ s' => str_in p s'
  end.

(** [s.count(c)] for a one-character needle. *)
Fixpoint count (c : ascii) (s : string) : nat :=
  match s with
  | EmptyString => 0
  | String a s' => (if Ascii.eqb a c then 1 else 0) + count c s'
  end.

(** [c * n]: a character repeated; a count below one gives the empty
    string, as Python does for a non-positive multiplier. *)
Definition repeat_char (c : ascii) (n : Z) : string :=
  string_of_list_ascii (List.repeat c (Z.to_nat n)).

Fixpoint rev_acc (s acc : string) : string :=
  match s with
  | EmptyString => acc
  | String c s' => rev_acc s' (String c acc)
  end.

Definition rev (s : string) : string := rev_acc s EmptyString.

(** [c.isspace()] on ASCII: tab, line feed, vertical tab, form feed,
    carriage return, the four separators 28..31 and the space. *)
Definition isspace (c : ascii) : bool :=
  let n := nat_of_ascii c in
  (((9 <=? n) && (n <=? 13)) || ((28 <=? n) && (n <=? 31)) || (n =? 32))%nat.

(** [s.lstrip()]. *)
Fixpoint lstrip (s : string) : string :=
  match s with
  | EmptyString => EmptyString
  | String c s' => if isspace c then lstrip s' else s
  end.

(** [s.rstrip()]. *)
Definition rstrip (s : string) : string := rev (lstrip (rev s)).

(** [s.strip()]. *)
Definition strip (s : string) : string := rstrip (lstrip s).

(** [s.endswith(p)]. *)
Definition endswith (p s : string) : bool := startswith (rev p) (rev s).

(** [s[n:]]. *)
Fixpoint drop_first (n : nat) (s : string) : string :=
  match n, s with
  | S n', String _ s' => drop_first n' s'
  | _, _ => s
  end.

(** [s[:-n]]: all but the last [n] characters. *)
Definition drop_last (n : nat) (s : string) : string :=
  substring 0 (String.length s - n) s.

(** [s.split(sep)] for a one-character separator. *)
Fixpoint split_on (sep : ascii) (s : string) : list string :=
  match s with
  | EmptyString => [EmptyString]
  | String c s' =>
      if Ascii.eqb c sep then EmptyString :: split_on sep s'
      else
        match split_on sep s' with
        | [] => [String c EmptyString]
        | w :: ws => String c w :: ws
        end
  end.

(** [sep.join(l)] for a one-character separator. *)
Fixpoint join (sep : ascii) (l : list string) : string :=
  match l with
  | [] => EmptyString
  | [w] => w
  | w :: l' => w ++ String sep (join sep l')
  end.

(** The double quote character. *)
Definition dquote : ascii := "034".

(** Texts that contain double quotes are written below with apostrophes
    in their place; [quoted] puts the double quotes back. *)
Fixpoint quoted (s : string) : string :=
  match s with
  | EmptyString => EmptyString
  | String c s' => String (if Ascii.eqb c "'" then dquote else c) (quoted s')
  end.

End Text.

(* ===================================================================== *)
(** ** Regular expressions, as [Series.str.contains] reads its patterns *)
(* ===================================================================== *)

(** [Series.str.contains(pat)] defaults to [regex=True]: the pattern is
    compiled by [re.compile] and a row is selected when [re.search] finds a
    match anywhere in the cell.  The rule table only uses plain characters,
    the wildcard [.], the postfix repetitions [*] and [+] (which bind to the
    single character before them) and top-level alternation [|]; this
    module gives that fragment its [re] meaning. *)
Module Regex.

Inductive atom : Set :=
| Lit (c : ascii)     (* the character itself *)
| AnyChar.            (* [.]: any character but a line feed *)

Inductive quant : Set :=
| One                 (* no suffix *)
| ZeroOrMore          (* [*] *)
| OneOrMore.          (* [+] *)

Definition piece : Set := (atom * quant)%type.
Definition branch : Set := list piece.
Definition regex : Set := list branch.

(** Characters with a meaning in [re] syntax that the fragment leaves out. *)
Definition outside_fragment (c : ascii) : bool :=
  existsb (Ascii.eqb c)
    ["\"%char; "^"%char; "$"%char; "?"%char; "{"%char; "}"%char;
     "["%char; "]"%char; "("%char; ")"%char].

Definition is_quantifier (c : ascii) : bool :=
  Ascii.eqb c "*" || Ascii.eqb c "+".

Definition atom_of (c : ascii) : atom :=
  if Ascii.eqb c "." then AnyChar else Lit c.

(** One alternative: a sequence of characters, each optionally followed by
    one repetition mark.  A repetition mark with nothing before it is a
    compile error in [re]; it and the characters outside the fragment give
    [None]. *)
Fixpoint parse_branch (s : string) : option branch :=
  match s with
  | EmptyString => Some []
  | String c s' =>
      if outside_fragment c || is_quantifier c then None
      else
        match s' with
        | String q s'' =>
            if Ascii.eqb q "*" then
              option_map (cons (atom_of c, ZeroOrMore)) (parse_branch s'')
            else if Ascii.eqb q "+" then
              option_map (cons (atom_of c, OneOrMore)) (parse_branch s'')
            else option_map (cons (atom_of c, One)) (parse_branch s')
        | EmptyString => Some [(atom_of c, One)]
        end
  end.

Fixpoint sequence {A : Type} (l : list (option A)) : option (list A) :=
  match l with
  | [] => Some []
  | None :: _ => None
  | Some x :: l' => option_map (cons x) (sequence l')
  end.

(** [re.compile(pat)] on the fragment. *)
Definition compile (pat : string) : option regex :=
  sequence (map parse_branch (Text.split_on "|" pat)).

Definition atom_ok (a : atom) (c : ascii) : bool :=
  match a with
  | Lit x => Ascii.eqb x c
  | AnyChar => negb (Ascii.eqb c "010")
  end.

(** [matches_at b s]: some prefix of [s] is matched by the alternative [b]
    (what [pattern.match] decides at one position). *)
Fixpoint matches_at (b : branch) : string -> bool :=
  match b with
  | [] => fun _ => true
  | (a, q) :: b' =>
      let rest := matches_at b' in
      let many :=
        fix many (s : string) : bool :=
          rest s ||
          match s with
          | EmptyString => false
          | String c s' => atom_ok a c && many s'
          end in
      match q with
      | One => fun s =>
          match s with
          | EmptyString => false
          | String c s' => atom_ok a c && rest s'
          end
      | ZeroOrMore => many
      | OneOrMore => fun s =>
          match s with
          | EmptyString => false
          | String c s' => atom_ok a c && many s'
          end
      end
  end.

(** A match of the alternative [b] starting at some position of [s]. *)
Fixpoint search_branch (b : branch) (s : string) : bool :=
  matches_at b s ||
  match s with
  | EmptyString => false
  | String _ s' => search_branch b s'
  end.

(** [re.search]: a match of some alternative anywhere in [s]. *)
Definition search (r : regex) (s : string) : bool :=
  existsb (fun b => search_branch b s) r.

(** [re.compile(pat).search(s) is not None]; a pattern outside the
    fragment selects nothing (no pattern of the rule table is). *)
Definition contains (pat s : string) : bool :=
  match compile pat with
  | Some r => search r s
  | None => false
  end.

End Regex.

(* ===================================================================== *)
(** ** The canonical record and the rule engine ([apply_labels]) *)
(* ===================================================================== *)

(** One row of the merged DataFrame.  [label] is the column that
    [apply_labels] creates; before that call its content is irrelevant. *)
Record Row : Set := mkRow {
  date : string;
  description : option string;
  amount : float;
  category : option string;
  card : string;
  source : string;
  label : option string
}.

Definition DataFrame : Set := list Row.

Definition set_label (r : Row) (l : option string) : Row :=
  mkRow (date r) (description r) (amount r) (category r) (card r) (source r) l.

(** [df["description"].str.upper().str.contains(pat, na=False)] on one cell:
    a regular-expression search in the upper-cased text, [False] on NaN. *)
Definition contains (pat : string) (d : option string) : bool :=
  match d with
  | Some s => Regex.contains pat (Text.upper s)
  | None => false
  end.

(** The same call with [regex=False]: literal containment, the
    pattern upper-cased by the caller. *)
Definition contains_literal (pat : string) (d : option string) : bool :=
  match d with
  | Some s => Text.str_in pat (Text.upper s)
  | None => false
  end.

(** [df["amount"] < 30] and [df["amount"] >= 30] on one cell. *)
Definition amount_lt_30 (a : float) : bool := PrimFloat.ltb a 30.
Definition amount_ge_30 (a : float) : bool := PrimFloat.leb 30 a.

(** [df["label"] == df["category"]] on one row: element-wise equality of two
    object columns, in which a NaN cell equals nothing, itself included. *)
Definition label_is_category (r : Row) : bool :=
  match label r, category r with
  | Some l, Some c => String.eqb l c
  | _, _ => false
  end.

(** [df["label"] != "Vending Machine"] on one row. *)
Definition label_not_vending (r : Row) : bool :=
  match label r with
  | Some l => negb (String.eqb l "Vending Machine")
  | None => true
  end.

(** One assignment [df.loc[mask, "label"] = target].  Every mask of
    [apply_labels] is the conjunction of a test on the description ([hit])
    and a test on the other columns of the row ([guard]). *)
Record step : Type := mkStep {
  hit : option string -> bool;
  guard : Row -> bool;
  target : string
}.

Definition mask (s : step) (r : Row) : bool :=
  hit s (description r) && guard s r.

Definition assign_row (s : step) (r : Row) : Row :=
  if mask s r then set_label r (Some (target s)) else r.

(** [df.loc[mask, "label"] = target] over the whole frame. *)
Definition assign (s : step) (df : DataFrame) : DataFrame :=
  map (assign_row s) df.

Definition always (_ : Row) : bool := true.

(** [for pattern in patterns: mask = contains(pattern.upper()); label = l]. *)
Definition for_patterns (patterns : list string) (l : string) : list step :=
  map (fun p => mkStep (contains (Text.upper p)) always l) patterns.

(** [for patterns, label in table: for pattern in patterns: ...]. *)
Definition for_table (table : list (list string * string)) : list step :=
  flat_map (fun '(patterns, l) => for_patterns patterns l) table.

Definition vending_patterns : list string :=
  [ "AMK MSU POD UNION";
    "AMK MSU POD";
    "AMK POD";
    "AMK MSU EINSTEINS";
    "AMK MSU GRIFFIS";
    "AMK MSU PANDA";
    "CTLP*REFRESHMENTS INC";
    "CTLP*REFRESH";
    "COCA COLA CLARK STARKVIL";
    "COCA COLA CLARK STARKV";
    "COCA COLA SOUTH METRO";
    "CTLP*GREENSBORO VENDIN";
    "365 MARKET K" ].

Definition gas_station_patterns : list string :=
  [ "SHELL"; "LOVE'S"; "LOVE S"; "BUC-EE"; "BUCEE"; "EXXON"; "CHEVRON";
    "MARATHON"; "MURPHY"; "QT "; "QUIKTRIP"; "PILOT"; "CIRCLE K";
    "SPRINT MART"; "76 - DEES"; "76 DEES"; "TEXACO"; "BP#"; "ON THE WAY" ].

Definition walmart_patterns : list string :=
  [ "WALMART"; "WAL-MART"; "WM SUPERCENTER"; "WALMART.COM" ].

Definition books_patterns : list (list string * string) :=
  [ (["KINDLE"], "Books (Kindle)");
    (["MCNALLY JACKSON"], "Books") ].

Definition streaming_labels : list (list string * string) :=
  [ (["NETFLIX"], "Netflix");
    (["DISNEY PLUS"; "DISNEY+"], "Disney+");
    (["YOUTUBE"], "YouTube Premium");
    (["GOOGLE *ONE"; "GOOGLE ONE"], "Google One");
    (["HINGE"], "Hinge");
    (["APPLE.COM"], "Apple") ].

Definition pro_services_labels : list (list string * string) :=
  [ (["LINKEDIN"], "LinkedIn Premium");
    (["STP*V*RESUME"; "RESUMEEXAMPLE"; "RESUME-EXAMPLE"], "Resume Services");
    (["ATLYS"], "Visa Services (Atlys)");
    (["MSDPS"], "DMV/DPS") ].

Definition api_labels : list (list string * string) :=
  [ (["GOOGLE *CLOUD"; "GOOGLE CLOUD"], "API Costs (Google Cloud)");
    (["GOOGLE COLAB"; "COLAB"], "API Costs (Google Colab)");
    (["AWS"; "AMAZON WEB SERVICES"], "API Costs (AWS)");
    (["ELEVENLABS"; "ELEVEN LABS"], "API Costs (ElevenLabs)") ].

Definition transport_labels : list (list string * string) :=
  [ (["UBER *TRIP"], "Uber Taxi");
    (["PAYPAL *LYFT"; "LYFT"], "Lyft");
    (["MTA*NYCT"; "OMNY"], "NYC Transit");
    (["BIRD APP"], "Bird Scooter");
    (["HNYFERRYIIL"; "FERRY"], "Ferry") ].

Definition clothing_labels : list (list string * string) :=
  [ (["MARSHALLS"], "Clothes (Marshalls)");
    (["CENTURY 21"], "Clothes (Century 21)");
    (["H&M "], "Clothes (H&M)");
    (["NIKE"; "KLARNA*NIKE"; "KLARNA* NIKE"], "Clothes (Nike)");
    (["FIVE BELOW"], "Five Below") ].

Definition grocery_labels : list (list string * string) :=
  [ (["KROGER"], "Grocery (Kroger)");
    (["ALDI"], "Grocery (Aldi)");
    (["PATEL BROTHERS"], "Grocery (Patel Brothers)");
    (["B & W DELI"], "Deli/Grocery (NYC)") ].

Definition shopping_labels : list (list string * string) :=
  [ (["DOLLAR-GENERAL"; "DOLLAR GENERAL"], "Dollar General");
    (["TARGET"], "Target");
    (["MICRO CENTER"], "Electronics (Micro Center)");
    (["NYC GIFTS"], "NYC Gift Shop");
    (["WH SMITH"], "WHSmith (Airport)");
    (["BOOTS"], "Boots (UK Pharmacy)");
    (["MAFES SALES"], "MSU MAFES Store");
    (["NASSAU STREET"], "Nassau Street Store") ].

Definition services_labels : list (list string * string) :=
  [ (["US MOBILE"; "USMOBILE"], "Phone Service");
    (["TOGGLE INSURANCE"], "Renters Insurance");
    (["MOLINA HEALTH"; "AMBETTER"; "WELLCARE"], "Health Insurance");
    (["UPS STORE"], "Shipping (UPS)");
    (["SPORT CLIPS"], "Haircut");
    (["COPY COW"], "Printing");
    (["PEARSON"], "Textbooks (Pearson)");
    (["MSU STUDENT HEALTH"], "MSU Health Center");
    (["MSU CAMPUS"], "MSU Campus");
    (["HCC MEDICAL"; "HCCMEDICAL"], "Medical Payment");
    (["MIDTOWN WASH"], "Car Wash");
    (["GREENE ST DECK"], "Parking");
    (["SOLIDGATE"], "Online Service");
    (["BICYCLE REP"], "Bicycle Repair") ].

Definition travel_labels : list (list string * string) :=
  [ (["VIRGIN ATLANTIC"], "Flight (Virgin Atlantic)");
    (["CHASE TRAVEL"; "TRIPCHRG"], "Chase Travel");
    (["SUPER 8"], "Hotel (Super 8)") ].

Definition entertainment_labels : list (list string * string) :=
  [ (["UEC THEATRE"], "Movie Theater");
    (["TOPGOLF"], "TopGolf") ].

Definition halal_patterns : list string :=
  [ "HALAL"; "BARHOSHA"; "HOODA"; "YASSO"; "CAIRO" ].

Definition restaurant_labels : list (list string * string) :=
  [ (["WENDYS"; "WENDY'S"; "WENDY S"], "Wendy's");
    (["MCDONALD"], "McDonald's");
    (["TACO BELL"], "Taco Bell");
    (["BURGER KING"], "Burger King");
    (["CHICK-FIL-A"; "CHICKFILA"; "CHICK FIL"], "Chick-fil-A");
    (["RAISING CANE"], "Raising Cane's");
    (["COOK OUT"; "COOKOUT"], "Cook Out");
    (["WAFFLE HOUSE"], "Waffle House");
    (["CHILIS"; "CHILI'S"; "CHILI S"], "Chili's");
    (["BUFFALO"; "BUFFALOWI"], "Buffalo Wild Wings");
    (["ANDAMAN THAI"], "Thai Restaurant");
    (["TOPGOLF"], "TopGolf");
    (["PITA PIT"], "Pita Pit");
    (["DOMINO"; "DOMINOS"], "Domino's");
    (["PIZZA"; "LITTLE ITALY"], "Pizza");
    (["STARBUCKS"], "Starbucks");
    (["HIGH GROUND COFFEE"], "High Ground Coffee");
    (["DUNKIN"], "Dunkin");
    (["DD *DOORDASH"; "DOORDASH"], "DoorDash");
    (["GRUBHUB"], "Grubhub");
    (["UBER *EATS"; "UBER EATS"; "UBEREATS"; "UBER   *EATS"], "Uber Eats");
    (["PANDA EXPRESS"; "TECH DINING-PANDA"], "Panda Express");
    (["BOARDTOWN"], "Boardtown Pies");
    (["DAVES DARK HORSE"], "Dave's Dark Horse");
    (["TAXI SHOP CAF"], "Taxi Shop CafÃ©");
    (["RETAG FOOD"], "Food Vendor") ].

Definition vending_final_patterns : list string :=
  [ "AMK MSU"; "AMK POD"; "CTLP"; "COCA COLA CLARK"; "COCA COLA SOUTH";
    "365 MARKET K" ].

(** The first vending pass. *)
Definition vending_steps : list step :=
  for_patterns vending_patterns "Vending Machine".

Definition simplebills_step : step :=
  mkStep (contains "SIMPLEBILLS|SIMPLE BILLS") always "Electricity".

(** One iteration of the gas-station loop: two assignments under the
    same test on the description, the second one made after the first. *)
Definition gas_station_pair (p : string) : list step :=
  [ mkStep (contains (Text.upper p)) (fun r => amount_lt_30 (amount r))
      "Gas Station Indiscretion";
    mkStep (contains (Text.upper p)) (fun r => amount_ge_30 (amount r))
      "Gasoline" ].

(** The gas-station loop. *)
Definition gas_station_steps : list step :=
  flat_map gas_station_pair gas_station_patterns.

Definition microsoft_step : step :=
  mkStep (contains "MICROSOFT") always "Microsoft".

Definition amazon_prime_step : step :=
  mkStep (contains "AMAZON PRIME") always "Amazon Prime".

Definition amazon_shopping_step : step :=
  mkStep
    (fun d =>
       contains "AMAZON" d && negb (contains "PRIME" d)
       && negb (contains "KINDLE" d) && negb (contains "WEB SERVICES" d))
    always "Amazon Shopping".

(** The generic Google payment: only where the label is still the
    category. *)
Definition google_generic_step : step :=
  mkStep (contains "PAYPAL *GOOGLE") label_is_category "Google Services".

Definition alipay_step : step :=
  mkStep (contains "ALIPAY") always "Alipay Transfer".

(** The restaurant loop: never over a "Vending Machine" label. *)
Definition restaurant_steps : list step :=
  flat_map
    (fun '(patterns, l) =>
       map (fun p => mkStep (contains (Text.upper p)) label_not_vending l)
         patterns)
    restaurant_labels.

(** The final pass, with [regex=False]. *)
Definition vending_final_steps : list step :=
  map (fun p => mkStep (contains_literal (Text.upper p)) always
                  "Vending Machine")
    vending_final_patterns.

(** The merchant tables between the gas-station loop and the generic
    Google rule, in program order. *)
Definition merchant_steps : list step :=
  for_patterns walmart_patterns "Walmart"
  ++ for_table books_patterns
  ++ for_table streaming_labels
  ++ for_table pro_services_labels
  ++ for_table api_labels
  ++ for_table transport_labels
  ++ for_table clothing_labels
  ++ for_table grocery_labels
  ++ for_table shopping_labels
  ++ for_table services_labels
  ++ for_table travel_labels
  ++ for_table entertainment_labels
  ++ [ microsoft_step; amazon_prime_step; amazon_shopping_step ].

(** The assignments that precede the generic Google rule. *)
Definition steps_before_google : list step :=
  vending_steps
  ++ [ simplebills_step ]
  ++ gas_station_steps
  ++ merchant_steps.

(** The assignments that follow the gas-station loop. *)
Definition steps_after_gas : list step :=
  merchant_steps
  ++ [ google_generic_step ]
  ++ [ alipay_step ]
  ++ for_patterns halal_patterns "NYC Halal Food"
  ++ restaurant_steps
  ++ vending_final_steps.

(** Every assignment of [apply_labels], in program order. *)
Definition steps : list step :=
  vending_steps
  ++ [ simplebills_step ]
  ++ gas_station_steps
  ++ steps_after_gas.

(** [df["label"] = df["category"]]. *)
Definition default_label (df : DataFrame) : DataFrame :=
  map (fun r => set_label r (category r)) df.

(** [apply_labels(df)]: the label column is (re)created from the category,
    then every assignment runs over the whole frame, one after the other. *)
Definition apply_labels (df : DataFrame) : DataFrame :=
  fold_left (fun d s => assign s d) steps (default_label df).

(** The assignments [ss], in order, as seen by a single row. *)
Definition run_steps (ss : list step) (r : Row) : Row :=
  fold_left (fun x s => assign_row s x) ss r.

(** What [apply_labels] does to a single row. *)
Definition classify_row (r : Row) : Row :=
  run_steps steps (set_label r (category r)).

(* ===================================================================== *)
(** ** JSON values and [json.loads] *)
(* ===================================================================== *)

(** The decoder of Python's standard library ([json.decoder],
    [json.scanner]) in its default configuration.  Numbers keep their
    lexeme and strings keep the text between their quotes, escapes
    undecoded: the pipeline only counts and forwards the decoded
    values. *)
Module Json.

Inductive json : Set :=
| JNull
| JBool (b : bool)
| JNumber (lexeme : string)      (* also [NaN], [Infinity], [-Infinity] *)
| JString (body : string)
| JArray (items : list json)
| JObject (members : list (string * json)).

(** The decoder's white space: space, tab, line feed, carriage return. *)
Definition is_ws (c : ascii) : bool :=
  Ascii.eqb c " " || Ascii.eqb c "009" || Ascii.eqb c "010"
  || Ascii.eqb c "013".

Fixpoint skip_ws (s : string) : string :=
  match s with
  | EmptyString => EmptyString
  | String c s' => if is_ws c then skip_ws s' else s
  end.

Definition is_digit (c : ascii) : bool :=
  let n := nat_of_ascii c in ((48 <=? n) && (n <=? 57))%nat.

Definition is_hex (c : ascii) : bool :=
  let n := nat_of_ascii c in
  (((48 <=? n) && (n <=? 57)) || ((65 <=? n) && (n <=? 70))
   || ((97 <=? n) && (n <=? 102)))%nat.

(** The longest run of digits at the head of [s], and what follows. *)
Fixpoint digits (s : string) : string * string :=
  match s with
  | EmptyString => (EmptyString, EmptyString)
  | String c s' =>
      if is_digit c then let '(d, r) := digits s' in (String c d, r)
      else (EmptyString, s)
  end.

(** The integer part: an optional minus sign, then [0] or a digit run
    that does not start with [0]. *)
Definition match_int (s : string) : option (string * string) :=
  let '(sign, s1) :=
    match s with
    | String "-" s' => ("-", s')
    | _ => (EmptyString, s)
    end in
  match s1 with
  | String "0" r => Some (sign ++ "0", r)
  | String c _ =>
      if is_digit c then let '(d, r) := digits s1 in Some (sign ++ d, r)
      else None
  | EmptyString => None
  end.

(** The optional fraction: a point and at least one digit. *)
Definition match_frac (s : string) : string * string :=
  match s with
  | String "." s' =>
      match digits s' with
      | (EmptyString, _) => (EmptyString, s)
      | (d, r) => (String "." d, r)
      end
  | _ => (EmptyString, s)
  end.

(** The optional exponent: [e] or [E], an optional sign, at least one
    digit. *)
Definition match_exp (s : string) : string * string :=
  match s with
  | String e s' =>
      if Ascii.eqb e "e" || Ascii.eqb e "E" then
        let '(sign, s1) :=
          match s' with
          | String c s'' =>
              if Ascii.eqb c "-" || Ascii.eqb c "+"
              then (String c EmptyString, s'') else (EmptyString, s')
          | EmptyString => (EmptyString, s')
          end in
        match digits s1 with
        | (EmptyString, _) => (EmptyString, s)
        | (d, r) => (String e (sign ++ d), r)
        end
      else (EmptyString, s)
  | EmptyString => (EmptyString, s)
  end.

(** [NUMBER_RE.match]. *)
Definition match_number (s : string) : option (string * string) :=
  match match_int s with
  | None => None
  | Some (i, r1) =>
      let '(f, r2) := match_frac r1 in
      let '(e, r3) := match_exp r2 in
      Some (i ++ f ++ e, r3)
  end.

(** [scanstring] in strict mode, entered after the opening quote: the body
    up to the closing quote and what follows it.  A control character, an
    unknown escape, a malformed [\uXXXX] or the end of the text before the
    closing quote is an error. *)
Fixpoint scanstring (s : string) : option (string * string) :=
  match s with
  | EmptyString => None
  | String c s' =>
      if Ascii.eqb c Text.dquote then Some (EmptyString, s')
      else if (nat_of_ascii c <? 32)%nat then None
      else if Ascii.eqb c "\" then
        match s' with
        | String e s'' =>
            if Ascii.eqb e "u" then
              match s'' with
              | String h1 (String h2 (String h3 (String h4 s4))) =>
                  if is_hex h1 && is_hex h2 && is_hex h3 && is_hex h4 then
                    match scanstring s4 with
                    | Some (b, r) =>
                        Some (String c (String e (String h1 (String h2
                               (String h3 (String h4 b))))), r)
                    | None => None
                    end
                  else None
              | _ => None
              end
            else if existsb (Ascii.eqb e)
                      [Text.dquote; "\"%char; "/"%char; "b"%char; "f"%char;
                       "n"%char; "r"%char; "t"%char] then
              match scanstring s'' with
              | Some (b, r) => Some (String c (String e b), r)
              | None => None
              end
            else None
        | EmptyString => None
        end
      else
        match scanstring s' with
        | Some (b, r) => Some (String c b, r)
        | None => None
        end
  end.

(** [scan_once], [JSONArray] and [JSONObject].  [fuel] bounds the depth of
    the calls; [loads] below provides more than any text can use.
    [array_items] and [object_members] are entered where the next item must
    start (after the opening bracket or a comma, white space skipped). *)
Fixpoint scan_once (fuel : nat) (s : string) : option (json * string) :=
  match fuel with
  | O => None
  | S fuel' =>
      match s with
      | EmptyString => None
      | String c s' =>
          if Ascii.eqb c Text.dquote then
            match scanstring s' with
            | Some (b, r) => Some (JString b, r)
            | None => None
            end
          else if Ascii.eqb c "{" then
            match skip_ws s' with
            | String "}" r => Some (JObject [], r)
            | s1 =>
                match object_members fuel' s1 with
                | Some (ms, r) => Some (JObject ms, r)
                | None => None
                end
            end
          else if Ascii.eqb c "[" then
            match skip_ws s' with
            | String "]" r => Some (JArray [], r)
            | s1 =>
                match array_items fuel' s1 with
                | Some (vs, r) => Some (JArray vs, r)
                | None => None
                end
            end
          else if Text.startswith "null" s then
            Some (JNull, Text.drop_first 4 s)
          else if Text.startswith "true" s then
            Some (JBool true, Text.drop_first 4 s)
          else if Text.startswith "false" s then
            Some (JBool false, Text.drop_first 5 s)
          else
            match match_number s with
            | Some (n, r) => Some (JNumber n, r)
            | None =>
                if Text.startswith "NaN" s then
                  Some (JNumber "NaN", Text.drop_first 3 s)
                else if Text.startswith "Infinity" s then
                  Some (JNumber "Infinity", Text.drop_first 8 s)
                else if Text.startswith "-Infinity" s then
                  Some (JNumber "-Infinity", Text.drop_first 9 s)
                else None
            end
      end
  end

with array_items (fuel : nat) (s : string) : option (list json * string) :=
  match fuel with
  | O => None
  | S fuel' =>
      match scan_once fuel' s with
      | None => None
      | Some (v, r) =>
          match skip_ws r with
          | String "]" r' => Some ([v], r')
          | String "," r' =>
              match array_items fuel' (skip_ws r') with
              | Some (vs, r'') => Some (v :: vs, r'')
              | None => None
              end
          | _ => None
          end
      end
  end

with object_members (fuel : nat) (s : string)
  : option (list (string * json) * string) :=
  match fuel with
  | O => None
  | S fuel' =>
      match s with
      | String q s' =>
          if Ascii.eqb q Text.dquote then
            match scanstring s' with
            | None => None
            | Some (key, r) =>
                match skip_ws r with
                | String ":" r1 =>
                    match scan_once fuel' (skip_ws r1) with
                    | None => None
                    | Some (v, r2) =>
                        match skip_ws r2 with
                        | String "}" r3 => Some ([(key, v)], r3)
                        | String "," r3 =>
                            match object_members fuel' (skip_ws r3) with
                            | Some (ms, r4) => Some ((key, v) :: ms, r4)
                            | None => None
                            end
                        | _ => None
                        end
                    end
                | _ => None
                end
            end
          else None
      | EmptyString => None
      end
  end.

(** [json.loads(s)]: one value between optional white space and nothing
    else; [None] stands for [JSONDecodeError]. *)
Definition loads (s : string) : option json :=
  match scan_once (2 * String.length s + 2) (skip_ws s) with
  | Some (v, r) =>
      match skip_ws r with
      | EmptyString => Some v
      | _ => None
      end
  | None => None
  end.

End Json.

(* ===================================================================== *)
(** ** Extraction: repair and the retry ladder *)
(* ===================================================================== *)

Import Json.

(** The loop of [try_fix_truncated_json] that tracks whether the text ends
    inside a string: [escaped] skips the character after a backslash, an
    unescaped double quote toggles [in_string]. *)
Fixpoint ends_in_string (s : string) (in_string escaped : bool) : bool :=
  match s with
  | EmptyString => in_string
  | String c s' =>
      if escaped then ends_in_string s' in_string false
      else if Ascii.eqb c "\" then ends_in_string s' in_string true
      else if Ascii.eqb c Text.dquote then
        ends_in_string s' (negb in_string) false
      else ends_in_string s' in_string false
  end.

(** [try_fix_truncated_json(json_str)]. *)
Definition try_fix_truncated_json (json_str : string) : string :=
  let open_braces :=
    (Z.of_nat (Text.count "{" json_str)
     - Z.of_nat (Text.count "}" json_str))%Z in
  let open_brackets :=
    (Z.of_nat (Text.count "[" json_str)
     - Z.of_nat (Text.count "]" json_str))%Z in
  let in_string := ends_in_string json_str false false in
  let fixed := json_str in
  let fixed :=
    if in_string then fixed ++ String Text.dquote EmptyString else fixed in
  let fixed := Text.rstrip fixed in
  let fixed :=
    if Text.endswith "," fixed then Text.drop_last 1 fixed else fixed in
  let fixed := fixed ++ Text.repeat_char "}" open_braces in
  let fixed := fixed ++ Text.repeat_char "]" open_brackets in
  fixed.

(** The clean-up of the response text in [extract_transactions_from_pdf]:
    surrounding white space and a Markdown code fence are removed. *)
Definition clean_response (text : string) : string :=
  let response_text := Text.strip text in
  let response_text :=
    if Text.startswith "```" response_text then
      let lines := Text.split_on "010" response_text in
      if String.eqb (Text.strip (List.last lines EmptyString)) "```"
      then Text.join "010" (List.removelast (List.tl lines))
      else Text.join "010" (List.tl lines)
    else response_text in
  if Text.endswith "```" response_text
  then Text.drop_last 3 response_text
  else response_text.

(** How a call of [extract_transactions_from_pdf] ends: it returns a decoded
    value, or the [len(transactions)] of its progress message raises
    [TypeError] on a decoded value that has no length. *)
Inductive outcome : Set :=
| Returned (transactions : json)
| RaisedTypeError.

(** [print(f"... {len(transactions)} ..."); return transactions]. *)
Definition report_and_return (transactions : json) : outcome :=
  match transactions with
  | JArray _ | JObject _ | JString _ => Returned transactions
  | JNull | JBool _ | JNumber _ => RaisedTypeError
  end.

(** What one call does, in order: a request to the extraction service and
    the texts handed to [json.loads]. *)
Inductive event : Set :=
| Request (pdf_path : string) (nth : nat)
| LoadsDirect (text : string)
| LoadsRepaired (text : string).

(** The state threaded through the calls: how many requests were sent and
    the events so far, oldest first. *)
Record session : Set := mkSession {
  requests : nat;
  trace : list event
}.

Definition log (e : event) (st : session) : session :=
  mkSession (requests st) (trace st ++ [e]).

Section Ladder.

(** The extraction service: the text of its answer to the [n]-th request
    of the session (counted from 0), made about a document.  The service
    always answers; its own failures are outside the model. *)
Variable generate_content : string -> nat -> string.

(** The JSON decoder in use. *)
Variable json_loads : string -> option json.

(** Upload and generation: one request, answered by the service. *)
Definition request (pdf_path : string) (st : session) : string * session :=
  (generate_content pdf_path (requests st),
   mkSession (S (requests st))
     (trace st ++ [Request pdf_path (requests st)])).

(** [extract_transactions_from_pdf(pdf_path, retry_count)]. *)
Equations? extract_transactions_from_pdf
  (pdf_path : string) (retry_count : Z) (st : session)
  : outcome * session by wf (Z.to_nat (1 - retry_count)) lt :=
extract_transactions_from_pdf pdf_path retry_count st
  with request pdf_path st := {
  | (text, st1)
      with json_loads (clean_response text) := {
      | Some transactions :=
          (report_and_return transactions,
           log (LoadsDirect (clean_response text)) st1);
      | None
          with json_loads
                 (try_fix_truncated_json (clean_response text)) := {
          | Some transactions :=
              (report_and_return transactions,
               log (LoadsRepaired
                      (try_fix_truncated_json (clean_response text)))
                 (log (LoadsDirect (clean_response text)) st1));
          | None with Z_lt_dec retry_count 1 := {
              | left _ :=
                  extract_transactions_from_pdf pdf_path (retry_count + 1)
                    (log (LoadsRepaired
                            (try_fix_truncated_json (clean_response text)))
                       (log (LoadsDirect (clean_response text)) st1));
              | right _ :=
                  (Returned (JArray []),
                   log (LoadsRepaired
                          (try_fix_truncated_json (clean_response text)))
                     (log (LoadsDirect (clean_response text)) st1)) } } } }.
Proof.
  change (Z.to_nat (1 - (retry_count + 1)) < Z.to_nat (1 - retry_count)).
  lia.
Qed.

End Ladder.

(* ===================================================================== *)
(** ** Text encodings *)
(* ===================================================================== *)

(** The codecs named in the adapters' candidate lists, as decoders from the
    bytes of a file to code points; [None] stands for
    [UnicodeDecodeError]. *)
Module Codec.

Inductive encoding : Set := utf_8 | latin_1 | cp1252 | iso_8859_1.

Definition code_point : Set := N.
Definition text : Set := list code_point.

Definition in_range (lo hi b : N) : bool := ((lo <=? b) && (b <=? hi))%N.

(** A continuation byte [10xxxxxx]. *)
Definition continuation (b : N) : bool := in_range 128 191 b.

Definition payload (b : N) : N := N.land b 63.

(** Strict UTF-8: shortest forms only, no surrogates, nothing above
    U+10FFFF. *)
Fixpoint decode_utf_8 (bs : list N) : option text :=
  match bs with
  | [] => Some []
  | b1 :: r1 =>
      if (b1 <? 128)%N then option_map (cons b1) (decode_utf_8 r1)
      else if in_range 194 223 b1 then
        match r1 with
        | b2 :: r2 =>
            if continuation b2 then
              option_map (cons (N.shiftl (N.land b1 31) 6 + payload b2)%N)
                (decode_utf_8 r2)
            else None
        | _ => None
        end
      else if in_range 224 239 b1 then
        match r1 with
        | b2 :: b3 :: r3 =>
            let lo := if (b1 =? 224)%N then 160%N else 128%N in
            let hi := if (b1 =? 237)%N then 159%N else 191%N in
            if in_range lo hi b2 && continuation b3 then
              option_map
                (cons (N.shiftl (N.land b1 15) 12
                       + N.shiftl (payload b2) 6 + payload b3)%N)
                (decode_utf_8 r3)
            else None
        | _ => None
        end
      else if in_range 240 244 b1 then
        match r1 with
        | b2 :: b3 :: b4 :: r4 =>
            let lo := if (b1 =? 240)%N then 144%N else 128%N in
            let hi := if (b1 =? 244)%N then 143%N else 191%N in
            if in_range lo hi b2 && continuation b3 && continuation b4 then
              option_map
                (cons (N.shiftl (N.land b1 7) 18
                       + N.shiftl (payload b2) 12
                       + N.shiftl (payload b3) 6 + payload b4)%N)
                (decode_utf_8 r4)
            else None
        | _ => None
        end
      else None
  end.

(** Latin-1 maps every byte to the code point of the same number. *)
Definition decode_latin_1 (bs : list N) : option text := Some bs.

(** Windows-1252 differs from Latin-1 on 128..159, where five bytes are
    unassigned. *)
Definition cp1252_high : list (N * N) :=
  [ (128, 8364); (130, 8218); (131, 402); (132, 8222); (133, 8230);
    (134, 8224); (135, 8225); (136, 710); (137, 8240); (138, 352);
    (139, 8249); (140, 338); (142, 381); (145, 8216); (146, 8217);
    (147, 8220); (148, 8221); (149, 8226); (150, 8211); (151, 8212);
    (152, 732); (153, 8482); (154, 353); (155, 8250); (156, 339);
    (158, 382); (159, 376) ]%N.

Fixpoint assoc (k : N) (l : list (N * N)) : option N :=
  match l with
  | [] => None
  | (k', v) :: l' => if (k =? k')%N then Some v else assoc k l'
  end.

Fixpoint decode_cp1252 (bs : list N) : option text :=
  match bs with
  | [] => Some []
  | b :: r =>
      if in_range 128 159 b then
        match assoc b cp1252_high with
        | Some c => option_map (cons c) (decode_cp1252 r)
        | None => None
        end
      else option_map (cons b) (decode_cp1252 r)
  end.

(** The content of a file: its bytes, each below 256. *)
Definition file_bytes : Set := list Byte.byte.

Definition values (bs : file_bytes) : list N := map Byte.to_N bs.

(** [bytes.decode(encoding)]; [iso-8859-1] is an alias of [latin-1]. *)
Definition decode (e : encoding) (bs : file_bytes) : option text :=
  match e with
  | utf_8 => decode_utf_8 (values bs)
  | latin_1 | iso_8859_1 => decode_latin_1 (values bs)
  | cp1252 => decode_cp1252 (values bs)
  end.

End Codec.

(* ===================================================================== *)
(** ** Source adapters and the merge *)
(* ===================================================================== *)

(** Exceptions that leave an adapter. *)
Inductive exn : Set :=
| CouldNotRead (file_path : string)   (* the adapter's own [ValueError] *)
| ReadError                           (* raised by [read_csv], not a decoding error *)
| SortError.                          (* raised while the merged frame is sorted *)

Inductive result (A : Type) : Type :=
| Ok (a : A)
| Raise (e : exn).
Arguments Ok {A} a.
Arguments Raise {A} e.

Definition bind {A B : Type} (m : result A) (k : A -> result B) : result B :=
  match m with
  | Ok a => k a
  | Raise e => Raise e
  end.

Notation "x <- m ;; k" := (bind m (fun x => k))
  (at level 61, m at next level, right associativity).

(** What one call of [pd.read_csv(file_path, encoding=...)] does. *)
Inductive read_outcome (A : Type) : Type :=
| Parsed (df : A)
| UnicodeDecodeError
| OtherError.
Arguments Parsed {A} df.
Arguments UnicodeDecodeError {A}.
Arguments OtherError {A}.

(** Rows as [read_csv] delivers them, with the columns each adapter reads. *)
Record CapitalOneRow : Set := mkCapitalOne {
  co_transaction_date : string;
  co_description : option string;
  co_debit : float;                 (* NaN where the cell is empty *)
  co_category : option string
}.

Record DiscoverRow : Set := mkDiscover {
  di_trans_date : string;
  di_description : option string;
  di_amount : float;
  di_category : option string
}.

Record ChaseRow : Set := mkChase {
  ch_date : string;
  ch_description : option string;
  ch_amount : float;
  ch_category : option string;
  ch_card : string;
  ch_source : string
}.

(** [Path(file_path).name]: the last component of a path that is written
    without [.] components, as the paths of a glob are. *)
Definition path_name (file_path : string) : string :=
  List.last (filter (fun w => negb (String.eqb w EmptyString))
               (Text.split_on "/" file_path)) EmptyString.

Definition encodings : list Codec.encoding :=
  [ Codec.utf_8; Codec.latin_1; Codec.cp1252; Codec.iso_8859_1 ].

(** [Series.notna()] on a float cell. *)
Definition notna (x : float) : bool := negb (PrimFloat.is_nan x).

(** [Series.isin(values)] on an object cell. *)
Definition isin (values : list string) (c : option string) : bool :=
  match c with
  | Some s => existsb (String.eqb s) values
  | None => false
  end.

Section Adapters.

(** [datetime.strptime] and [datetime.strftime]. *)
Variable datetime : Type.
Variable strptime : string -> string -> option datetime.
Variable strftime : datetime -> string -> string.

(** The tabular parser behind [pd.read_csv], on decoded text. *)
Variable A : Type.
Variable parse_csv : Codec.text -> option A.

(** [pd.read_csv(file_path, encoding=encoding)] on a file with the
    given content. *)
Definition read_csv (content : Codec.file_bytes) (e : Codec.encoding)
  : read_outcome A :=
  match Codec.decode e content with
  | None => UnicodeDecodeError
  | Some t =>
      match parse_csv t with
      | Some df => Parsed df
      | None => OtherError
      end
  end.

(** The loop over the candidate encodings: [None] is [df is None] after
    the loop; an exception that is not a decoding error leaves the
    loop and the adapter. *)
Fixpoint try_encodings (content : Codec.file_bytes)
  (candidates : list Codec.encoding) : result (option A) :=
  match candidates with
  | [] => Ok None
  | e :: rest =>
      match read_csv content e with
      | Parsed df => Ok (Some df)
      | UnicodeDecodeError => try_encodings content rest
      | OtherError => Raise ReadError
      end
  end.

(** The head of every adapter: the loop, then the check of its result. *)
Definition read_with_fallback (file_path : string)
  (content : Codec.file_bytes) : result A :=
  df <- try_encodings content encodings ;;
  match df with
  | None => Raise (CouldNotRead file_path)
  | Some df => Ok df
  end.

(** [normalize_date(date_str)]. *)
Definition normalize_date (date_str : string) : string :=
  let date_str := Text.strip date_str in
  let formats := [ "%Y-%m-%d"; "%m/%d/%Y"; "%m/%d/%y" ] in
  (fix try_formats (fmts : list string) : string :=
     match fmts with
     | [] => date_str
     | fmt :: rest =>
         match strptime date_str fmt with
         | Some dt => strftime dt "%Y-%m-%d"
         | None => try_formats rest
         end
     end) formats.

End Adapters.

Arguments read_csv {A} parse_csv content e.
Arguments try_encodings {A} parse_csv content candidates.
Arguments read_with_fallback {A} parse_csv file_path content.
Arguments normalize_date {datetime} strptime strftime date_str.

Section Loaders.

Variable datetime : Type.
Variable strptime : string -> string -> option datetime.
Variable strftime : datetime -> string -> string.
Variable parse_capital_one : Codec.text -> option (list CapitalOneRow).
Variable parse_discover : Codec.text -> option (list DiscoverRow).
Variable parse_chase : Codec.text -> option (list ChaseRow).

(** [load_capital_one(file_path)]. *)
Definition load_capital_one (file_path : string)
  (content : Codec.file_bytes) : result DataFrame :=
  df <- read_with_fallback parse_capital_one file_path content ;;
  let df := filter (fun r => notna (co_debit r)) df in
  Ok (map (fun r =>
             mkRow (normalize_date strptime strftime
                      (co_transaction_date r))
               (co_description r) (co_debit r) (co_category r)
               "CapitalOne" (path_name file_path) None) df).

(** [load_discover(file_path)]. *)
Definition load_discover (file_path : string)
  (content : Codec.file_bytes) : result DataFrame :=
  df <- read_with_fallback parse_discover file_path content ;;
  let df := filter (fun r => PrimFloat.ltb 0 (di_amount r)) df in
  let df :=
    filter (fun r =>
              negb (isin [ "Payments and Credits";
                           "Awards and Rebate Credits" ] (di_category r)))
      df in
  Ok (map (fun r =>
             mkRow (normalize_date strptime strftime (di_trans_date r))
               (di_description r) (di_amount r) (di_category r)
               "Discover" (path_name file_path) None) df).

(** [load_chase(file_path)]. *)
Definition load_chase (file_path : string)
  (content : Codec.file_bytes) : result DataFrame :=
  df <- read_with_fallback parse_chase file_path content ;;
  Ok (map (fun r =>
             mkRow (ch_date r) (ch_description r) (ch_amount r)
               (ch_category r) (ch_card r) (ch_source r) None) df).

(** [for f in files: all_dfs.append(load(f))]. *)
Fixpoint load_all
  (load : string -> Codec.file_bytes -> result DataFrame)
  (files : list (string * Codec.file_bytes)) : result (list DataFrame) :=
  match files with
  | [] => Ok []
  | (f, content) :: rest =>
      df <- load f content ;;
      dfs <- load_all load rest ;;
      Ok (df :: dfs)
  end.

(** [pd.to_datetime], [sort_values("date")] and the formatting of the
    dates that follows: pandas, not this program. *)
Variable sort_values_by_date : DataFrame -> result DataFrame.

(** [merge_all_csvs(csv_dir)], the directory given by the files that each
    of its three globs finds. *)
Definition merge_all_csvs
  (capital_one_files discover_files chase_files
     : list (string * Codec.file_bytes)) : result DataFrame :=
  c <- load_all load_capital_one capital_one_files ;;
  d <- load_all load_discover discover_files ;;
  h <- load_all load_chase chase_files ;;
  let all_dfs := (c ++ d ++ h)%list in
  match all_dfs with
  | [] => Ok []
  | _ =>
      let merged := List.concat all_dfs in
      let merged := apply_labels merged in
      sort_values_by_date merged
  end.

End Loaders.

Arguments load_capital_one {datetime} strptime strftime parse_capital_one
  file_path content.
Arguments load_discover {datetime} strptime strftime parse_discover
  file_path content.
Arguments merge_all_csvs {datetime} strptime strftime parse_capital_one
  parse_discover parse_chase sort_values_by_date capital_one_files
  discover_files chase_files.

(* ===================================================================== *)
(** ** Vocabulary of the properties *)
(* ===================================================================== *)

(** "The description contains the pattern, case-insensitively":
    [pattern.upper() in description.upper()]. *)
Definition contains_ci (p : string) (d : option string) : bool :=
  contains_literal (Text.upper p) d.

(** A pattern in which every character stands for itself in [re] syntax. *)
Definition plain_char (c : ascii) : bool :=
  negb (Regex.outside_fragment c || Regex.is_quantifier c
        || Ascii.eqb c "." || Ascii.eqb c "|").

Fixpoint plain (p : string) : bool :=
  match p with
  | EmptyString => true
  | String c p' => plain_char c && plain p'
  end.

(** The regular expression that a plain pattern compiles to. *)
Fixpoint literal (p : string) : Regex.branch :=
  match p with
  | EmptyString => []
  | String c p' => (Regex.Lit c, Regex.One) :: literal p'
  end.

(** Every pattern that [apply_labels] hands to [str.contains] as a regular
    expression. *)
Definition regex_patterns : list string :=
  map Text.upper
    (vending_patterns ++ gas_station_patterns ++ walmart_patterns
     ++ flat_map fst
          (books_patterns ++ streaming_labels ++ pro_services_labels
           ++ api_labels ++ transport_labels ++ clothing_labels
           ++ grocery_labels ++ shopping_labels ++ services_labels
           ++ travel_labels ++ entertainment_labels ++ restaurant_labels)
     ++ halal_patterns)
  ++ [ "SIMPLEBILLS|SIMPLE BILLS"; "MICROSOFT"; "AMAZON PRIME"; "AMAZON";
       "PRIME"; "KINDLE"; "WEB SERVICES"; "PAYPAL *GOOGLE"; "ALIPAY" ].

(** No assignment made after the gas-station loop selects a row with this
    description. *)
Definition no_later_rule_matches (d : option string) : bool :=
  negb (existsb (fun s => hit s d) steps_after_gas).

Definition set_amount (r : Row) (a : float) : Row :=
  mkRow (date r) (description r) a (category r) (card r) (source r)
    (label r).

(** The label of a row is present and not the empty string. *)
Definition label_defined (r : Row) : bool :=
  match label r with
  | Some l => negb (String.eqb l EmptyString)
  | None => false
  end.

(** Every amount of the frame is strictly positive. *)
Definition positive_amounts (df : DataFrame) : bool :=
  forallb (fun r => PrimFloat.ltb 0 (amount r)) df.

(** A family of unconditional assignments to one label [T], one per
    pattern, the test on the description given by [h]. *)
Definition family (h : string -> option string -> bool) (T : string)
  (ps : list string) : list step :=
  map (fun p => mkStep (h p) always T) ps.



(* ===================================================================== *)
(** ** Concrete inputs used below *)
(* ===================================================================== *)

(** A vending purchase on campus whose description also names a
    restaurant and a gas station. *)
Definition campus_vending_row : Row :=
  mkRow "2025-02-11" (Some "Amk Msu Panda Express Shell") 31.5
    (Some "Dining") "CapitalOne" "CapitalOne_2025.csv" None.

(** A subscription, as a Discover export describes it. *)
Definition netflix_row : Row :=
  mkRow "2025-03-02" (Some "NETFLIX.COM") 15.99 (Some "Entertainment")
    "Discover" "Discover_2025.csv" None.

(** A small purchase at a gas station. *)
Definition shell_row : Row :=
  mkRow "2025-03-01" (Some "SHELL OIL 12345") 12.5 None "CapitalOne"
    "CapitalOne_2025.csv" None.

(** A generic Google payment through PayPal, as it is billed. *)
Definition google_play_payment : Row :=
  mkRow "2025-02-03" (Some "PAYPAL *GOOGLE PLAY") 4.99 (Some "Services")
    "Discover" "Discover_2025.csv" None.

(** A purchase whose source gives no category and that no rule selects. *)
Definition uncategorised_row : Row :=
  mkRow "2025-01-05" (Some "LOCAL BAKERY 0042") 4.5 None "CapitalOne"
    "CapitalOne_2025.csv" None.

(** The same purchase with a category from its source. *)
Definition categorised_row : Row :=
  mkRow "2025-01-05" (Some "LOCAL BAKERY 0042") 4.5 (Some "Dining")
    "CapitalOne" "CapitalOne_2025.csv" None.

(** The example of a response cut in the middle of a string. *)
Definition truncated_example : string :=
  Text.quoted "[{'date':'2025-01-01','description':'X".


(** A date parser that recognises nothing: dates pass through unchanged. *)
Definition no_strptime (_ _ : string) : option unit := None.
Definition no_strftime (_ : unit) (_ : string) : string := EmptyString.

(** A reader that delivers the table [df]: the parser of [read_csv] on a
    file whose table is [df]. *)
Definition reads {A : Type} (df : A) : Codec.text -> option A :=
  fun _ => Some df.

(** A Discover export with a purchase, a payment and a rebate, and the
    table that [read_csv] makes of it. *)
Definition discover_file : Codec.file_bytes :=
  list_byte_of_string
"Trans. Date,Post Date,Description,Amount,Category
03/02/2025,03/02/2025,NETFLIX.COM,15.99,Entertainment
03/05/2025,03/05/2025,INTERNET PAYMENT - THANK YOU,-120.00,Payments and Credits
03/07/2025,03/07/2025,CASHBACK BONUS,5.00,Awards and Rebate Credits
".

Definition discover_export : list DiscoverRow :=
  [ mkDiscover "03/02/2025" (Some "NETFLIX.COM") 15.99 (Some "Entertainment");
    mkDiscover "03/05/2025" (Some "INTERNET PAYMENT - THANK YOU") (-120)
      (Some "Payments and Credits");
    mkDiscover "03/07/2025" (Some "CASHBACK BONUS") 5
      (Some "Awards and Rebate Credits") ].

(** A Chase extraction that holds a refund. *)
Definition chase_file : Codec.file_bytes :=
  list_byte_of_string
"date,description,amount,category,card,source
2025-01-20,AMAZON MKTPL REFUND,-23.45,Merchandise,Chase-2040,statement.pdf
".

Definition chase_extraction : list ChaseRow :=
  [ mkChase "2025-01-20" (Some "AMAZON MKTPL REFUND") (-23.45)
      (Some "Merchandise") "Chase-2040" "statement.pdf" ].

(** A CapitalOne export whose Debit column holds a zero and a negative
    value. *)
Definition capital_one_file : Codec.file_bytes :=
  list_byte_of_string
"Transaction Date,Posted Date,Card No.,Description,Category,Debit,Credit
2025-03-01,2025-03-02,1234,SHELL OIL 12345,Gas,0.00,
2025-03-02,2025-03-03,1234,ADJUSTMENT,Other,-5.00,
".

Definition capital_one_export : list CapitalOneRow :=
  [ mkCapitalOne "2025-03-01" (Some "SHELL OIL 12345") 0 (Some "Gas");
    mkCapitalOne "2025-03-02" (Some "ADJUSTMENT") (-5) (Some "Other") ].

(** A Chase file in Latin-1: the description holds the byte E9, which is
    not UTF-8. *)
Definition latin_1_file : Codec.file_bytes :=
  (list_byte_of_string
"date,description,amount,category,card,source
2025-01-21,CAF"
   ++ [ Byte.xe9 ]
   ++ list_byte_of_string
" DU MONDE,8.50,Dining,Chase-2040,statement.pdf
")%list.

(** Membership in a list that is written out. *)
Ltac pick_member := solve [ repeat (first [ left; reflexivity | right ]) ].

(* ===================================================================== *)
(** ** Vocabulary of the further properties *)
(* ===================================================================== *)

(** A test on the description that only sees its upper-cased text. *)
Definition upper_blind (h : option string -> bool) : Prop :=
  forall d1 d2 : string,
    Text.upper d1 = Text.upper d2 -> h (Some d1) = h (Some d2).

(** A test on the other columns that only reads the amount, the category
    and the current label. *)
Definition reads_amount_category_label (g : Row -> bool) : Prop :=
  forall r1 r2 : Row,
    amount r1 = amount r2 -> category r1 = category r2 ->
    label r1 = label r2 -> g r1 = g r2.

(** Two rows that agree on the amount, on the category and, up to case, on
    the description. *)
Definition alike (r1 r2 : Row) : Prop :=
  amount r1 = amount r2
  /\ category r1 = category r2
  /\ option_map Text.upper (description r1)
     = option_map Text.upper (description r2).

(** The assignments before and after the Amazon shopping rule. *)
Definition steps_before_amazon_shopping : list step :=
  vending_steps
  ++ [ simplebills_step ]
  ++ gas_station_steps
  ++ for_patterns walmart_patterns "Walmart"
  ++ for_table books_patterns
  ++ for_table streaming_labels
  ++ for_table pro_services_labels
  ++ for_table api_labels
  ++ for_table transport_labels
  ++ for_table clothing_labels
  ++ for_table grocery_labels
  ++ for_table shopping_labels
  ++ for_table services_labels
  ++ for_table travel_labels
  ++ for_table entertainment_labels
  ++ [ microsoft_step; amazon_prime_step ].

Definition steps_after_amazon_shopping : list step :=
  [ google_generic_step; alipay_step ]
  ++ for_patterns halal_patterns "NYC Halal Food"
  ++ restaurant_steps
  ++ vending_final_steps.

(** The assignments after the Alipay rule. *)
Definition steps_after_alipay : list step :=
  for_patterns halal_patterns "NYC Halal Food"
  ++ restaurant_steps
  ++ vending_final_steps.

(** A transfer that only the Alipay rule selects. *)
Definition alipay_row : Row :=
  mkRow "2025-04-02" (Some "Alipay Singapore E-Com") 42 (Some "Services")
    "Discover" "Discover_2025.csv" None.

(** A row without a description. *)
Definition undescribed_row : Row :=
  mkRow "2025-04-03" None 12 (Some "Merchandise") "Chase-2040"
    "statement.pdf" None.

(** A marketplace purchase at Amazon. *)
Definition amazon_marketplace_row : Row :=
  mkRow "2025-04-04" (Some "Amazon Mktpl*ZB4TY1") 23.1 (Some "Merchandise")
    "Discover" "Discover_2025.csv" None.

(** The same Netflix subscription as another card reports it. *)
Definition netflix_row_lower_case : Row :=
  mkRow "2025-03-02" (Some "Netflix.com") 15.99 (Some "Entertainment")
    "Chase-2040" "statement.pdf" (Some "stale").

(** Membership in a concatenation of [n + 1] lists, one case per list. *)
Ltac split_in n H :=
  lazymatch n with
  | O => idtac
  | S ?m => apply in_app_or in H as [H | H]; [ | split_in m H ]
  end.

(** A text made of white space only. *)
Fixpoint blank (w : string) : bool :=
  match w with
  | EmptyString => true
  | String c w' => Text.isspace c && blank w'
  end.

(** The two flags of the loop of [try_fix_truncated_json] after the text
    [s]: whether the text ends inside a string and whether it ends right
    after an unescaped backslash. *)
Fixpoint scan_state (s : string) (in_string escaped : bool) : bool * bool :=
  match s with
  | EmptyString => (in_string, escaped)
  | String c s' =>
      if escaped then scan_state s' in_string false
      else if Ascii.eqb c "\" then scan_state s' in_string true
      else if Ascii.eqb c Text.dquote then
        scan_state s' (negb in_string) false
      else scan_state s' in_string false
  end.

(** A text without double quotes and backslashes. *)
Fixpoint inert (w : string) : bool :=
  match w with
  | EmptyString => true
  | String c w' =>
      negb (Ascii.eqb c "\") && negb (Ascii.eqb c Text.dquote) && inert w'
  end.

(** The character [c] does not occur in [s]. *)
Definition free_of (c : ascii) (s : string) : bool :=
  Nat.eqb (Text.count c s) 0.



(** A fenced answer of the extraction service. *)
Definition fenced_answer : string :=
  "  ```json" ++ String "010" (Text.quoted "[{'amount': 45.23}]"
  ++ String "010" ("```" ++ String "010" EmptyString)).

(** What [read_csv] leaves of a file once its text is decoded. *)
Definition parsed {A : Type} (o : option A) : result A :=
  match o with
  | Some df => Ok df
  | None => Raise ReadError
  end.

(** A reader that finds no table. *)
Definition unreadable {A : Type} : Codec.text -> option A := fun _ => None.

(** A file in Windows-1252 that holds the euro sign (byte 80). *)
Definition cp1252_file : Codec.file_bytes :=
  (list_byte_of_string
"date,description,amount,category,card,source
2025-01-22,5"
   ++ [ Byte.x80 ]
   ++ list_byte_of_string
" SHOP,5.00,Merchandise,Chase-2040,statement.pdf
")%list.

(* ===================================================================== *)
(** ** The statements folder and the extracted file *)
(* ===================================================================== *)

(** The text that a JSON string stands for.  A Python [str] is held as
    the bytes of its UTF-8 form, a lone surrogate in the three bytes that
    its number gives. *)
Module Escapes.

Definition hex_value (c : ascii) : N :=
  let n := N_of_ascii c in
  (if (48 <=? n) && (n <=? 57) then n - 48
   else if (65 <=? n) && (n <=? 70) then n - 55
   else n - 87)%N.

Definition code_unit (h1 h2 h3 h4 : ascii) : N :=
  (((hex_value h1 * 16 + hex_value h2) * 16 + hex_value h3) * 16
   + hex_value h4)%N.

Definition byte_char (n : N) : ascii := ascii_of_N n.

Definition encode (cp : N) : string :=
  (if cp <? 128 then String (byte_char cp) EmptyString
   else if cp <? 2048 then
     String (byte_char (192 + cp / 64))
       (String (byte_char (128 + cp mod 64)) EmptyString)
   else if cp <? 65536 then
     String (byte_char (224 + cp / 4096))
       (String (byte_char (128 + (cp / 64) mod 64))
          (String (byte_char (128 + cp mod 64)) EmptyString))
   else
     String (byte_char (240 + cp / 262144))
       (String (byte_char (128 + (cp / 4096) mod 64))
          (String (byte_char (128 + (cp / 64) mod 64))
             (String (byte_char (128 + cp mod 64)) EmptyString))))%N.

Definition is_high_surrogate (u : N) : bool :=
  ((55296 <=? u) && (u <=? 56319))%N.

Definition is_low_surrogate (u : N) : bool :=
  ((56320 <=? u) && (u <=? 57343))%N.

Definition join_surrogates (hi lo : N) : N :=
  (65536 + (hi - 55296) * 1024 + (lo - 56320))%N.

Definition simple_escape (e : ascii) : ascii :=
  if Ascii.eqb e "b" then "008"%char
  else if Ascii.eqb e "f" then "012"%char
  else if Ascii.eqb e "n" then "010"%char
  else if Ascii.eqb e "r" then "013"%char
  else if Ascii.eqb e "t" then "009"%char
  else e.

(** The second half of a surrogate pair, when [s] starts with its
    escape. *)
Definition low_surrogate_escape (s : string) : option N :=
  match s with
  | String b (String u (String l1 (String l2 (String l3 (String l4 _))))) =>
      if Ascii.eqb b "\" && Ascii.eqb u "u"
         && is_low_surrogate (code_unit l1 l2 l3 l4)
      then Some (code_unit l1 l2 l3 l4) else None
  | _ => None
  end.

(** The text of a string body that [scanstring] accepted. *)
Fixpoint unescape (body : string) : string :=
  match body with
  | EmptyString => EmptyString
  | String c s' =>
      if Ascii.eqb c "\" then
        match s' with
        | String e s'' =>
            if Ascii.eqb e "u" then
              match s'' with
              | String h1 (String h2 (String h3 (String h4 s4))) =>
                  let hi := code_unit h1 h2 h3 h4 in
                  match s4 with
                  | String _ (String _ (String _ (String _ (String _
                      (String _ s10))))) =>
                      match low_surrogate_escape s4 with
                      | Some lo =>
                          if is_high_surrogate hi
                          then encode (join_surrogates hi lo) ++ unescape s10
                          else encode hi ++ unescape s4
                      | None => encode hi ++ unescape s4
                      end
                  | _ => encode hi ++ unescape s4
                  end
              | _ => String c (unescape s')
              end
            else String (simple_escape e) (unescape s'')
        | EmptyString => String c EmptyString
        end
      else String c (unescape s')
  end.

End Escapes.

(** A value held by a transaction: what [json.loads] built from a JSON
    value, or a [str] that the program made. *)
Inductive value : Set :=
| FromJson (j : json)
| Str (s : string).

(** A [dict] with [str] keys, in the order of insertion. *)
Definition dict : Set := list (string * value).

(** [d.get(k)]. *)
Fixpoint dict_get (k : string) (d : dict) : option value :=
  match d with
  | [] => None
  | (k', v) :: d' => if String.eqb k' k then Some v else dict_get k d'
  end.

(** [d[k] = v]: a key that is present keeps its place. *)
Fixpoint dict_set (k : string) (v : value) (d : dict) : dict :=
  match d with
  | [] => [(k, v)]
  | (k', v') :: d' =>
      if String.eqb k' k then (k', v) :: d' else (k', v') :: dict_set k v d'
  end.

(** The [dict] that the decoder makes of the members of an object. *)
Definition as_dict (members : list (string * json)) : dict :=
  fold_left
    (fun d m => dict_set (Escapes.unescape (fst m)) (FromJson (snd m)) d)
    members [].

(** [txn["card"] = card; txn["source"] = source] on one item: only a
    [dict] takes an item under a [str]; on anything else the assignment
    raises [TypeError]. *)
Definition tag (card source : string) (txn : json) : option dict :=
  match txn with
  | JObject members =>
      Some (dict_set "source" (Str source)
              (dict_set "card" (Str card) (as_dict members)))
  | _ => None
  end.

Fixpoint tag_items (card source : string) (items : list json)
  : option (list dict) :=
  match items with
  | [] => Some []
  | txn :: rest =>
      match tag card source txn with
      | None => None
      | Some d =>
          match tag_items card source rest with
          | None => None
          | Some ds => Some (d :: ds)
          end
      end
  end.

(** The loop [for txn in transactions] and the [extend] after it, on what
    [extract_transactions_from_pdf] returned: the items of a list; the
    keys of a [dict] and the characters of a [str] are [str]s, on which
    the first assignment raises.  [None] is that [TypeError]. *)
Definition tag_transactions (card source : string) (transactions : json)
  : option (list dict) :=
  match transactions with
  | JArray items => tag_items card source items
  | JObject [] => Some []
  | JString EmptyString => Some []
  | _ => None
  end.

(** How [process_all_pdfs] ends. *)
Inductive batch : Set :=
| Collected (all_transactions : list dict)
| TypeErrorRaised.

Definition pdf_folders : list string := [ "PDF/2040"; "PDF/7557" ].

(** [folder.split("/")[1]]. *)
Definition card_suffix (folder : string) : string :=
  nth 1 (Text.split_on "/" folder) EmptyString.

Definition card_of (folder : string) : string :=
  "Chase-" ++ card_suffix folder.

Section Statements.

Variable generate_content : string -> nat -> string.
Variable json_loads : string -> option json.

(** The folder [base_dir / folder] as the function finds it: [None] when
    it does not exist, else the files of
    [sorted(folder_path.glob("*.pdf"))] in that order, each given by
    [str(pdf_file)] and [pdf_file.name]. *)
Variable pdf_files : string -> option (list (string * string)).

(** The loop over the files of one folder. *)
Fixpoint process_folder (card : string) (files : list (string * string))
  (all_transactions : list dict) (st : session) : batch * session :=
  match files with
  | [] => (Collected all_transactions, st)
  | (pdf_file, name) :: rest =>
      match
        extract_transactions_from_pdf generate_content json_loads pdf_file 0
          st
      with
      | (RaisedTypeError, st1) => (TypeErrorRaised, st1)
      | (Returned transactions, st1) =>
          match tag_transactions card name transactions with
          | None => (TypeErrorRaised, st1)
          | Some tagged =>
              process_folder card rest (all_transactions ++ tagged)%list st1
          end
      end
  end.

(** The loop over the folders. *)
Fixpoint process_folders (folders : list string)
  (all_transactions : list dict) (st : session) : batch * session :=
  match folders with
  | [] => (Collected all_transactions, st)
  | folder :: rest =>
      match pdf_files folder with
      | None => process_folders rest all_transactions st
      | Some files =>
          match process_folder (card_of folder) files all_transactions st with
          | (Collected all_transactions, st1) =>
              process_folders rest all_transactions st1
          | (TypeErrorRaised, st1) => (TypeErrorRaised, st1)
          end
      end
  end.

(** [process_all_pdfs(base_dir)]. *)
Definition process_all_pdfs (st : session) : batch * session :=
  process_folders pdf_folders [] st.

End Statements.

(** The key of the sort, [x.get("date", EMPTY)] with the empty [str] for
    [EMPTY]. *)
Definition date_key (x : dict) : value :=
  match dict_get "date" x with
  | Some v => v
  | None => Str EmptyString
  end.

(** The text of a value that is a [str]. *)
Definition str_of (v : value) : option string :=
  match v with
  | Str s => Some s
  | FromJson (JString body) => Some (Escapes.unescape body)
  | FromJson _ => None
  end.

(** Every transaction with its key, when all the keys are [str]s. *)
Fixpoint keyed (transactions : list dict) : option (list (string * dict)) :=
  match transactions with
  | [] => Some []
  | x :: rest =>
      match str_of (date_key x), keyed rest with
      | Some k, Some l => Some ((k, x) :: l)
      | _, _ => None
      end
  end.

(** The place of an item among items that are in order: before the first
    one whose key is not smaller. *)
Fixpoint insert_keyed (kx : string * dict) (l : list (string * dict))
  : list (string * dict) :=
  match l with
  | [] => [kx]
  | ky :: l' =>
      if String.leb (fst kx) (fst ky) then kx :: l
      else ky :: insert_keyed kx l'
  end.

(** [list.sort] on keys that are [str]s: the stable order of the keys,
    compared character by character. *)
Definition sort_keyed (l : list (string * dict)) : list (string * dict) :=
  fold_right insert_keyed [] l.

(** [transactions.sort(key=lambda x: x.get("date", EMPTY))].  Fewer than
    two items are not compared.  [None]: some key is not a [str], where
    the comparison is that of the numbers, lists or other values met, or
    raises. *)
Definition sort_by_date (transactions : list dict) : option (list dict) :=
  match transactions with
  | [] | [_] => Some transactions
  | _ => option_map (fun l => map snd (sort_keyed l)) (keyed transactions)
  end.

Definition fieldnames : list string :=
  [ "date"; "description"; "amount"; "category"; "card"; "source" ].

(** [DictWriter._dict_to_list]: the cells of a row in the order of the
    field names, the empty [str] for a missing one; [None] is the
    [ValueError] for a key that is no field name. *)
Definition dict_to_list (rowdict : dict) : option (list value) :=
  if forallb (fun k => existsb (String.eqb k) fieldnames) (map fst rowdict)
  then
    Some (map (fun k =>
                 match dict_get k rowdict with
                 | Some v => v
                 | None => Str EmptyString
                 end) fieldnames)
  else None.

(** [writer.writerows(rowdicts)]: the rows reach the writer one by one, up
    to the first that raises; [true] when none did. *)
Fixpoint writerows (rowdicts : list dict) : list (list value) * bool :=
  match rowdicts with
  | [] => ([], true)
  | d :: rest =>
      match dict_to_list d with
      | None => ([], false)
      | Some row => let '(rows, ok) := writerows rest in (row :: rows, ok)
      end
  end.

(** How [save_to_csv] ends, by the rows handed to the [csv] writer. *)
Inductive saved : Set :=
| NothingToSave
| Handed (rows : list (list value))
| HandedThenValueError (rows : list (list value)).

(** [save_to_csv(transactions, output_path)]; [None] where the sort is
    not described. *)
Definition save_to_csv (transactions : list dict) : option saved :=
  match transactions with
  | [] => Some NothingToSave
  | _ =>
      match sort_by_date transactions with
      | None => None
      | Some transactions =>
          let header := map Str fieldnames in
          let '(rows, ok) := writerows transactions in
          Some (if ok then Handed (header :: rows)
                else HandedThenValueError (header :: rows))
      end
  end.

(** A transaction as [process_all_pdfs] leaves it: an object of an answer
    about a file of the folder, with the two tags set. *)
Definition from_folder (pdf_files : string -> option (list (string * string)))
  (folder : string) (d : dict) : Prop :=
  exists files pdf_file name members,
    pdf_files folder = Some files
    /\ In (pdf_file, name) files
    /\ d = dict_set "source" (Str name)
             (dict_set "card" (Str (card_of folder)) (as_dict members)).

(** The files that the run visits, folder by folder. *)
Definition listed (pdf_files : string -> option (list (string * string)))
  : list (string * string) :=
  flat_map (fun folder =>
              match pdf_files folder with
              | Some files => files
              | None => []
              end) pdf_folders.

(** The member of an object that gives the value under a key: the last
    one whose name reads as that key. *)
Definition last_member (k : string) (members : list (string * json))
  : option (string * json) :=
  find (fun m => String.eqb (Escapes.unescape (fst m)) k) (rev members).

Definition keys (d : dict) : list string := map fst d.

(** The cell of a row under a field name. *)
Definition cell (rowdict : dict) (k : string) : value :=
  match dict_get k rowdict with
  | Some v => v
  | None => Str EmptyString
  end.

Definition has_date (k : string) (x : dict) : bool :=
  match str_of (date_key x) with
  | Some k' => String.eqb k' k
  | None => false
  end.

(** A service that answers every request with a list holding a number. *)
Definition number_service (_ : string) (_ : nat) : string := "[1]".

(** A service that names a card of its own and repeats a member. *)
Definition two_purchases : string :=
  Text.quoted
    "[{'date': '2025-01-16', 'amount': 67.89, 'card': 'Visa'},
      {'date': '2025-01-15', 'amount': 1, 'amount': 45.23}]".

Definition purchase_service (_ : string) (_ : nat) : string := two_purchases.

(** A service that adds a member of its own to a record. *)
Definition noted_purchase : string :=
  Text.quoted "[{'date': '2025-01-16', 'amount': 67.89, 'notes': 'tip'}]".

Definition noting_service (_ : string) (_ : nat) : string := noted_purchase.

(** One statement in the first folder, none in the second. *)
Definition one_statement (folder : string) : option (list (string * string)) :=
  if String.eqb folder "PDF/2040"
  then Some [ ("/home/u/PDF/2040/january.pdf", "january.pdf") ]
  else None.

Definition no_folders (_ : string) : option (list (string * string)) := None.

Definition is_object (j : json) : bool :=
  match j with
  | JObject _ => true
  | _ => false
  end.

(** A record whose keys are all field names of the file. *)
Definition known_keys (rowdict : dict) : bool :=
  forallb (fun k => existsb (String.eqb k) fieldnames) (keys rowdict).

(** The row of a record. *)
Definition row (rowdict : dict) : list value := map (cell rowdict) fieldnames.

Definition string_le (a b : string) : Prop := String.leb a b = true.

(** Transactions paired with the texts of their dates. *)
Definition keyed_by_date (l : list (string * dict)) : Prop :=
  Forall (fun p => str_of (date_key (snd p)) = Some (fst p)) l.

(** Three purchases, two of them of the same day. *)
Definition three_purchases : list dict :=
  [ [ ("date", FromJson (JString "2025-01-16")); ("amount", FromJson (JNumber "3")) ];
    [ ("date", FromJson (JString "2025-01-15")); ("amount", FromJson (JNumber "1")) ];
    [ ("amount", FromJson (JNumber "0")) ];
    [ ("date", FromJson (JString "2025-01-15")); ("amount", FromJson (JNumber "2")) ] ].

(* ===================================================================== *)
(** ** Facts about text and patterns *)
(* ===================================================================== *)

Lemma startswith_spec (p s : string) :
  Text.startswith p s = true <-> exists t, s = p ++ t.
Proof.
  revert s; induction p as [|a p IH]; intros s; simpl.
  - split; [intros _; now exists s | reflexivity].
  - destruct s as [|b s].
    + split; [discriminate | intros [t Ht]; discriminate].
    + rewrite andb_true_iff, Ascii.eqb_eq, IH. split.
      * intros [-> [t ->]]. now exists t.
      * intros [t Ht]. injection Ht as -> ->. split; [reflexivity | now exists t].
Qed.

Lemma string_app_assoc (a b c : string) : (a ++ b) ++ c = a ++ b ++ c.
Proof. induction a as [|x a IH]; simpl; [reflexivity | now rewrite IH]. Qed.

Lemma str_in_spec (p s : string) :
  Text.str_in p s = true <-> exists a b, s = a ++ p ++ b.
Proof.
  induction s as [|c s IH]; simpl.
  - rewrite orb_false_r, startswith_spec. split.
    + intros [t Ht]. now exists EmptyString, t.
    + intros [a [b H]]. destruct a as [|x a]; [now exists b | discriminate].
  - rewrite orb_true_iff, startswith_spec, IH. split.
    + intros [[t Ht] | [a [b Hab]]].
      * now exists EmptyString, t.
      * exists (String c a), b. simpl. now rewrite Hab.
    + intros [a [b H]]. destruct a as [|x a].
      * left. now exists b.
      * right. simpl in H. injection H as _ H. now exists a, b.
Qed.

(** Containment is transitive. *)
Lemma str_in_trans (a b c : string) :
  Text.str_in a b = true -> Text.str_in b c = true -> Text.str_in a c = true.
Proof.
  rewrite !str_in_spec. intros [u [v ->]] [x [y ->]].
  exists (x ++ u), (v ++ y). now rewrite !string_app_assoc.
Qed.

Lemma plain_char_facts (c : ascii) :
  plain_char c = true ->
  Regex.outside_fragment c || Regex.is_quantifier c = false
  /\ Ascii.eqb c "*" = false /\ Ascii.eqb c "+" = false
  /\ Ascii.eqb c "." = false /\ Ascii.eqb c "|" = false.
Proof.
  unfold plain_char, Regex.is_quantifier.
  destruct (Regex.outside_fragment c), (Ascii.eqb c "*"), (Ascii.eqb c "+"),
    (Ascii.eqb c "."), (Ascii.eqb c "|"); simpl; intros H;
    try discriminate; repeat split.
Qed.

Lemma parse_branch_plain (p : string) :
  plain p = true -> Regex.parse_branch p = Some (literal p).
Proof.
  induction p as [|c p IH]; [reflexivity|].
  intros H. apply andb_true_iff in H as [Hc Hp].
  apply plain_char_facts in Hc as (Hspecial & _ & _ & Hdot & _).
  cbn [Regex.parse_branch literal]. rewrite Hspecial.
  unfold Regex.atom_of. rewrite Hdot.
  destruct p as [|q p']; [reflexivity|].
  pose proof Hp as Hq. cbn [plain] in Hq.
  apply andb_true_iff in Hq as [Hq _].
  apply plain_char_facts in Hq as (_ & Hstar & Hplus & _ & _).
  rewrite Hstar, Hplus, (IH Hp). reflexivity.
Qed.

Lemma split_on_plain (p : string) :
  plain p = true -> Text.split_on "|" p = [p].
Proof.
  induction p as [|c p IH]; [reflexivity|].
  intros H. apply andb_true_iff in H as [Hc Hp].
  apply plain_char_facts in Hc as (_ & _ & _ & _ & Hbar).
  cbn [Text.split_on]. rewrite Hbar, (IH Hp). reflexivity.
Qed.

Lemma compile_plain (p : string) :
  plain p = true -> Regex.compile p = Some [literal p].
Proof.
  intros H. unfold Regex.compile.
  rewrite (split_on_plain p H). cbn [map Regex.sequence].
  now rewrite (parse_branch_plain p H).
Qed.

Lemma matches_at_literal (p s : string) :
  Regex.matches_at (literal p) s = Text.startswith p s.
Proof.
  revert s; induction p as [|c p IH]; intros s; [reflexivity|].
  cbn [literal Regex.matches_at Text.startswith].
  destruct s as [|b s]; [reflexivity|].
  cbn [Regex.atom_ok]. now rewrite IH.
Qed.

Lemma search_branch_literal (p s : string) :
  Regex.search_branch (literal p) s = Text.str_in p s.
Proof.
  induction s as [|c s IH]; cbn [Regex.search_branch Text.str_in];
    rewrite matches_at_literal; [reflexivity | now rewrite IH].
Qed.

(** On a plain pattern the regular-expression search is literal
    containment. *)
Lemma regex_contains_plain (p s : string) :
  plain p = true -> Regex.contains p s = Text.str_in p s.
Proof.
  intros H. unfold Regex.contains. rewrite (compile_plain p H).
  cbn [Regex.search existsb]. now rewrite search_branch_literal, orb_false_r.
Qed.

(** The fragment covers the rule table: every pattern compiles. *)
Lemma regex_patterns_compile :
  forallb (fun p => match Regex.compile p with Some _ => true | None => false end)
    regex_patterns = true.
Proof. vm_compute. reflexivity. Qed.

(* ===================================================================== *)
(** ** Facts about the rule engine *)
(* ===================================================================== *)

Section RuleEngine.

Lemma set_label_label (r : Row) : set_label r (label r) = r.
Proof. now destruct r. Qed.

Lemma assign_row_description (s : step) (r : Row) :
  description (assign_row s r) = description r.
Proof. unfold assign_row. now destruct (mask s r). Qed.

Lemma assign_row_amount (s : step) (r : Row) :
  amount (assign_row s r) = amount r.
Proof. unfold assign_row. now destruct (mask s r). Qed.

(** An assignment only ever touches the label. *)
Lemma assign_row_set_label (s : step) (r : Row) :
  exists l, assign_row s r = set_label r l.
Proof.
  unfold assign_row. destruct (mask s r).
  - now exists (Some (target s)).
  - exists (label r). now rewrite set_label_label.
Qed.

Lemma run_steps_app (ss1 ss2 : list step) (r : Row) :
  run_steps (ss1 ++ ss2) r = run_steps ss2 (run_steps ss1 r).
Proof. apply fold_left_app. Qed.

Lemma run_steps_cons (s : step) (ss : list step) (r : Row) :
  run_steps (s :: ss) r = run_steps ss (assign_row s r).
Proof. reflexivity. Qed.

Lemma run_steps_set_label (ss : list step) (r : Row) :
  exists l, run_steps ss r = set_label r l.
Proof.
  revert r; induction ss as [|s ss IH]; intros r.
  - exists (label r). now rewrite set_label_label.
  - rewrite run_steps_cons.
    destruct (assign_row_set_label s r) as [l ->].
    destruct (IH (set_label r l)) as [l' ->]. now exists l'.
Qed.

Lemma run_steps_description (ss : list step) (r : Row) :
  description (run_steps ss r) = description r.
Proof. now destruct (run_steps_set_label ss r) as [l ->]. Qed.

Lemma run_steps_amount (ss : list step) (r : Row) :
  amount (run_steps ss r) = amount r.
Proof. now destruct (run_steps_set_label ss r) as [l ->]. Qed.

(** The frame-wide loop is the row-wise loop on every row. *)
Lemma assign_all_rowwise (ss : list step) (df : DataFrame) :
  fold_left (fun d s => assign s d) ss df = map (run_steps ss) df.
Proof.
  revert df; induction ss as [|s ss IH]; intros df; simpl.
  - now rewrite map_id.
  - rewrite IH. unfold assign. rewrite map_map. reflexivity.
Qed.

Lemma apply_labels_rowwise (df : DataFrame) :
  apply_labels df = map classify_row df.
Proof.
  unfold apply_labels, default_label, classify_row.
  rewrite assign_all_rowwise, map_map. reflexivity.
Qed.

(** The result does not depend on the label column of the input. *)
Lemma classify_row_set_label (r : Row) (l : option string) :
  classify_row (set_label r l) = classify_row r.
Proof. unfold classify_row. f_equal. Qed.

Lemma classify_row_description (r : Row) :
  description (classify_row r) = description r.
Proof. unfold classify_row. now rewrite run_steps_description. Qed.

(** Assignments whose tests on the description all fail change nothing. *)
Lemma run_steps_no_hit (ss : list step) (r : Row) :
  existsb (fun s => hit s (description r)) ss = false ->
  run_steps ss r = r.
Proof.
  revert r; induction ss as [|s ss IH]; intros r H; [reflexivity|].
  cbn [existsb] in H. apply orb_false_iff in H as [Hs Hss].
  rewrite run_steps_cons. unfold assign_row, mask. rewrite Hs. cbn.
  now apply IH.
Qed.

(** The label after a run is the one before it or some target. *)
Lemma run_steps_label (ss : list step) (r : Row) :
  label (run_steps ss r) = label r
  \/ exists s, In s ss /\ label (run_steps ss r) = Some (target s).
Proof.
  revert r; induction ss as [|s ss IH]; intros r; [now left|].
  rewrite run_steps_cons.
  destruct (IH (assign_row s r)) as [H | [s' [Hin H]]].
  - rewrite H. unfold assign_row. destruct (mask s r).
    + right. exists s. split; [now left | reflexivity].
    + now left.
  - right. exists s'. split; [now right | exact H].
Qed.

Lemma family_keeps (h : string -> option string -> bool) (T : string)
  (ps : list string) (r : Row) :
  label r = Some T -> label (run_steps (family h T ps) r) = Some T.
Proof.
  revert r; induction ps as [|p ps IH]; intros r H; [exact H|].
  cbn [family map]. rewrite run_steps_cons. apply IH.
  unfold assign_row. destruct (mask _ r); [reflexivity | exact H].
Qed.

Lemma family_hit (h : string -> option string -> bool) (T : string)
  (ps : list string) (r : Row) :
  existsb (fun p => h p (description r)) ps = true ->
  label (run_steps (family h T ps) r) = Some T.
Proof.
  revert r; induction ps as [|p ps IH]; intros r H; [discriminate|].
  cbn [existsb] in H. cbn [family map]. rewrite run_steps_cons.
  destruct (h p (description r)) eqn:Hp.
  - apply family_keeps. unfold assign_row, mask. cbn. now rewrite Hp.
  - apply IH. now rewrite assign_row_description.
Qed.

Lemma assign_row_guard_false (s : step) (r : Row) :
  guard s r = false -> assign_row s r = r.
Proof. intros H. unfold assign_row, mask. now rewrite H, andb_false_r. Qed.

Lemma assign_row_hit_false (s : step) (r : Row) :
  hit s (description r) = false -> assign_row s r = r.
Proof. intros H. unfold assign_row, mask. now rewrite H. Qed.

Lemma assign_row_selected (s : step) (r : Row) :
  hit s (description r) = true -> guard s r = true ->
  assign_row s r = set_label r (Some (target s)).
Proof. intros H G. unfold assign_row, mask. now rewrite H, G. Qed.

(** One iteration of the gas-station loop, by the side of 30 the amount
    is on. *)
Lemma gas_station_pair_below (p : string) (r : Row) :
  amount_lt_30 (amount r) = true -> amount_ge_30 (amount r) = false ->
  run_steps (gas_station_pair p) r =
  if contains (Text.upper p) (description r)
  then set_label r (Some "Gas Station Indiscretion") else r.
Proof.
  intros Hlt Hge. unfold gas_station_pair. rewrite !run_steps_cons.
  cbn [run_steps fold_left].
  match goal with |- assign_row ?s2 (assign_row ?s1 r) = _ =>
    rewrite (assign_row_guard_false s2 (assign_row s1 r))
      by (cbn [guard]; now rewrite assign_row_amount);
    destruct (contains (Text.upper p) (description r)) eqn:Hp;
    [ now rewrite (assign_row_selected s1 r) by assumption
    | now rewrite (assign_row_hit_false s1 r) by assumption ]
  end.
Qed.

Lemma gas_station_pair_from_30 (p : string) (r : Row) :
  amount_lt_30 (amount r) = false -> amount_ge_30 (amount r) = true ->
  run_steps (gas_station_pair p) r =
  if contains (Text.upper p) (description r)
  then set_label r (Some "Gasoline") else r.
Proof.
  intros Hlt Hge. unfold gas_station_pair. rewrite !run_steps_cons.
  cbn [run_steps fold_left].
  match goal with |- assign_row ?s2 (assign_row ?s1 r) = _ =>
    rewrite (assign_row_guard_false s1 r) by assumption;
    destruct (contains (Text.upper p) (description r)) eqn:Hp;
    [ now rewrite (assign_row_selected s2 r) by assumption
    | now rewrite (assign_row_hit_false s2 r) by assumption ]
  end.
Qed.

(** The whole loop: once a pattern has selected the row, its label is
    the one that goes with the side of 30 its amount is on. *)
Lemma gas_station_loop (ps : list string) (r : Row) (T : string) :
  (forall p x, amount x = amount r ->
     run_steps (gas_station_pair p) x =
     if contains (Text.upper p) (description x)
     then set_label x (Some T) else x) ->
  run_steps (flat_map gas_station_pair ps) r =
  if existsb (fun p => contains (Text.upper p) (description r)) ps
  then set_label r (Some T) else r.
Proof.
  intros Hpair. revert r Hpair.
  induction ps as [|p ps IH]; intros r Hpair; [reflexivity|].
  cbn [flat_map existsb]. rewrite run_steps_app, (Hpair p r eq_refl).
  destruct (contains (Text.upper p) (description r)) eqn:Hp.
  - rewrite IH.
    + cbn [description orb].
      now destruct (existsb _ ps).
    + intros q x Hx. apply Hpair. now rewrite Hx.
  - cbn [orb]. now apply IH.
Qed.

End RuleEngine.

(* ===================================================================== *)
(** ** Properties of the classification *)
(* ===================================================================== *)

Lemma steps_split (r : Row) :
  run_steps steps r =
  run_steps vending_final_steps
    (run_steps
       (vending_steps ++ [simplebills_step] ++ gas_station_steps
        ++ merchant_steps ++ [google_generic_step] ++ [alipay_step]
        ++ for_patterns halal_patterns "NYC Halal Food" ++ restaurant_steps)
       r).
Proof.
  rewrite <- run_steps_app. unfold steps, steps_after_gas.
  now rewrite <- !app_assoc.
Qed.

(** Every protected pattern contains a pattern of the final pass. *)
Lemma protected_pattern_covered (p : string) (d : option string) :
  In p (vending_patterns ++ vending_final_patterns) ->
  contains_ci p d = true ->
  existsb (fun fp => contains_literal (Text.upper fp) d)
    vending_final_patterns = true.
Proof.
  intros Hp Hd. destruct d as [s|]; [|discriminate].
  assert (Hall : forallb
            (fun p => existsb
                        (fun fp => Text.str_in (Text.upper fp) (Text.upper p))
                        vending_final_patterns)
            (vending_patterns ++ vending_final_patterns) = true)
    by (vm_compute; reflexivity).
  rewrite forallb_forall in Hall. specialize (Hall p Hp).
  apply existsb_exists in Hall as [fp [Hfp Hin]].
  apply existsb_exists. exists fp. split; [exact Hfp|].
  unfold contains_ci, contains_literal in *.
  exact (str_in_trans _ _ _ Hin Hd).
Qed.

(** C1. Protected-category precedence: a transaction whose description
    contains, case-insensitively, one of the vending-machine patterns (of
    the first pass or of the final pass) is labelled "Vending Machine" by
    [apply_labels], whatever else its description and amount match. *)
Theorem protected_category_precedence
  (df : DataFrame) (i : nat) (t : Row) (p : string) :
  nth_error df i = Some t ->
  In p (vending_patterns ++ vending_final_patterns) ->
  contains_ci p (description t) = true ->
  exists t',
    nth_error (apply_labels df) i = Some t'
    /\ description t' = description t
    /\ label t' = Some "Vending Machine".
Proof.
  intros Hi Hp Hd. exists (classify_row t). split; [|split].
  - rewrite apply_labels_rowwise. now apply map_nth_error.
  - apply classify_row_description.
  - unfold classify_row. rewrite steps_split.
    change vending_final_steps
      with (family (fun p => contains_literal (Text.upper p))
              "Vending Machine" vending_final_patterns).
    apply family_hit. rewrite run_steps_description. cbn [description set_label].
    now apply protected_pattern_covered with (p := p).
Qed.

Lemma protected_category_precedence_witness :
  exists t',
    nth_error (apply_labels [campus_vending_row]) 0 = Some t'
    /\ description t' = description campus_vending_row
    /\ label t' = Some "Vending Machine".
Proof.
  apply (protected_category_precedence [campus_vending_row] 0
           campus_vending_row "AMK MSU PANDA").
  - reflexivity.
  - pick_member.
  - vm_compute. reflexivity.
Defined.

Lemma classify_row_idempotent (r : Row) :
  classify_row (classify_row r) = classify_row r.
Proof.
  unfold classify_row at 2.
  destruct (run_steps_set_label steps (set_label r (category r))) as [l ->].
  apply (classify_row_set_label r l).
Qed.

(** C2. Idempotence: applying [apply_labels] to its own result gives that
    result again, so every label is the same after the second application
    as after the first. *)
Theorem apply_labels_idempotent (df : DataFrame) :
  apply_labels (apply_labels df) = apply_labels df.
Proof.
  rewrite !apply_labels_rowwise, map_map.
  apply map_ext. intros r. apply classify_row_idempotent.
Qed.

Lemma gas_station_patterns_plain :
  forallb (fun p => plain (Text.upper p)) gas_station_patterns = true.
Proof. vm_compute. reflexivity. Qed.

Lemma gas_station_selected (p : string) (d : option string) :
  In p gas_station_patterns ->
  contains_ci p d = true ->
  existsb (fun p => contains (Text.upper p) d) gas_station_patterns = true.
Proof.
  intros Hp Hd. apply existsb_exists. exists p. split; [exact Hp|].
  destruct d as [s|]; [|discriminate].
  pose proof gas_station_patterns_plain as Hplain.
  rewrite forallb_forall in Hplain.
  unfold contains. rewrite regex_contains_plain by now apply Hplain.
  exact Hd.
Qed.

(** A gas-station row that no later assignment selects keeps the label of
    the gas-station loop. *)
Lemma gas_station_label (t : Row) (p T : string) :
  In p gas_station_patterns ->
  contains_ci p (description t) = true ->
  no_later_rule_matches (description t) = true ->
  (forall q x, amount x = amount t ->
     run_steps (gas_station_pair q) x =
     if contains (Text.upper q) (description x)
     then set_label x (Some T) else x) ->
  label (classify_row t) = Some T.
Proof.
  intros Hp Hd Hlater Hpair.
  unfold classify_row, steps. rewrite !run_steps_app.
  rewrite (run_steps_no_hit steps_after_gas).
  - unfold gas_station_steps. rewrite gas_station_loop with (T := T).
    + rewrite !run_steps_description. cbn [description set_label].
      now rewrite (gas_station_selected p (description t) Hp Hd).
    + intros q x Hx. apply Hpair. rewrite Hx, !run_steps_amount.
      reflexivity.
  - rewrite !run_steps_description. cbn [description set_label].
    unfold no_later_rule_matches in Hlater.
    now apply negb_true_iff in Hlater.
Qed.

(** C3. Threshold split at 30: of two transactions with the same
    description, one that contains a gas-station pattern and that no later
    assignment selects, the one with amount 29.99 is labelled "Gas Station
    Indiscretion" and the one with amount 30.00 is labelled "Gasoline". *)
Theorem threshold_split_at_30 (t : Row) (p : string) :
  In p gas_station_patterns ->
  contains_ci p (description t) = true ->
  no_later_rule_matches (description t) = true ->
  map label (apply_labels [set_amount t 29.99; set_amount t 30.00])
  = [Some "Gas Station Indiscretion"; Some "Gasoline"].
Proof.
  intros Hp Hd Hlater. rewrite apply_labels_rowwise. cbn [map]. f_equal.
  - apply gas_station_label with (p := p); try assumption.
    intros q x Hx. apply gas_station_pair_below; rewrite Hx; reflexivity.
  - f_equal. apply gas_station_label with (p := p); try assumption.
    intros q x Hx. apply gas_station_pair_from_30; rewrite Hx; reflexivity.
Qed.

Lemma threshold_split_at_30_witness :
  map label
    (apply_labels [set_amount shell_row 29.99; set_amount shell_row 30.00])
  = [Some "Gas Station Indiscretion"; Some "Gasoline"].
Proof.
  apply (threshold_split_at_30 shell_row "SHELL").
  - pick_member.
  - vm_compute. reflexivity.
  - vm_compute. reflexivity.
Defined.

(** The two purchases of the end-to-end example, classified together. *)
Example shell_and_netflix :
  map label (apply_labels [shell_row; netflix_row])
  = [Some "Gas Station Indiscretion"; Some "Netflix"].
Proof. vm_compute. reflexivity. Qed.

(** C4. On a payment whose description contains the text PAYPAL *GOOGLE
    and whose label is still its category when the generic Google rule is
    reached, the rule does not fire and the final label is the category:
    [str.contains] reads the pattern as a regular expression, in which the
    asterisk repeats the space before it. *)
Theorem google_generic_rule_skips_literal_match :
  let before :=
    run_steps steps_before_google
      (set_label google_play_payment (category google_play_payment)) in
  contains_ci "PAYPAL *GOOGLE" (description before) = true
  /\ label_is_category before = true
  /\ mask google_generic_step before = false
  /\ map label (apply_labels [google_play_payment]) = [Some "Services"].
Proof. vm_compute. repeat split. Qed.

(** A row whose source gives no category and that no rule selects leaves
    [apply_labels] without a label. *)
Lemma uncategorised_row_stays_unlabelled :
  map label (apply_labels [uncategorised_row]) = [None]
  /\ map label_defined (apply_labels [uncategorised_row]) = [false].
Proof. vm_compute. split; reflexivity. Qed.

Lemma targets_not_empty :
  forallb (fun s => negb (String.eqb (target s) EmptyString)) steps = true.
Proof. vm_compute. reflexivity. Qed.

(** C8 (amended). After [apply_labels] the label of a transaction is its
    original category or the target of one of the rules, none of which is
    empty; so it is defined and non-empty whenever the category is. *)
Theorem label_is_category_or_rule_target
  (df : DataFrame) (i : nat) (t : Row) :
  nth_error df i = Some t ->
  exists t',
    nth_error (apply_labels df) i = Some t'
    /\ (label t' = category t
        \/ exists s, In s steps /\ label t' = Some (target s))
    /\ (forall c, category t = Some c -> c <> EmptyString ->
        label_defined t' = true).
Proof.
  intros Hi. exists (classify_row t). split.
  - rewrite apply_labels_rowwise. now apply map_nth_error.
  - unfold classify_row, label_defined.
    destruct (run_steps_label steps (set_label t (category t)))
      as [H | [s [Hs H]]]; rewrite H.
    + cbn [label set_label]. split; [left; reflexivity|].
      intros c Hc Hne. rewrite Hc.
      apply negb_true_iff, String.eqb_neq, Hne.
    + split; [right; exists s; split; [exact Hs | reflexivity]|].
      intros c _ _. pose proof targets_not_empty as Hall.
      rewrite forallb_forall in Hall. exact (Hall s Hs).
Qed.

Lemma label_is_category_or_rule_target_witness :
  exists t',
    nth_error (apply_labels [categorised_row]) 0 = Some t'
    /\ label_defined t' = true.
Proof.
  destruct (label_is_category_or_rule_target [categorised_row] 0
              categorised_row eq_refl) as [t' [Hnth [_ Hdefined]]].
  exists t'. split; [exact Hnth|].
  apply (Hdefined "Dining"); [reflexivity | discriminate].
Defined.

(* ===================================================================== *)
(** ** Properties of the extraction ladder *)
(* ===================================================================== *)

(** C7. Repair of the truncated example: [try_fix_truncated_json] appends a
    closing quote, a closing brace and a closing bracket, and the result
    decodes to an array of exactly one record whose description is X. *)
Theorem repair_truncated_example :
  try_fix_truncated_json truncated_example
  = truncated_example ++ Text.quoted "'}]"
  /\ Json.loads (try_fix_truncated_json truncated_example)
     = Some (JArray [JObject [("date", JString "2025-01-01");
                              ("description", JString "X")]])
  /\ Json.loads truncated_example = None.
Proof. vm_compute. repeat split. Qed.

Section LadderFacts.

Variable generate_content : string -> nat -> string.
Variable json_loads : string -> option json.
Variable pdf_path : string.

(** One call, unfolded. *)
Lemma extract_unfold (retry_count : Z) (st : session) :
extract_transactions_from_pdf generate_content json_loads pdf_path
  retry_count st =
let text := clean_response (generate_content pdf_path (requests st)) in
let st1 :=
  mkSession (S (requests st)) (trace st ++ [Request pdf_path (requests st)]) in
let st2 := log (LoadsDirect text) st1 in
match json_loads text with
| Some transactions => (report_and_return transactions, st2)
| None =>
    let st3 := log (LoadsRepaired (try_fix_truncated_json text)) st2 in
    match json_loads (try_fix_truncated_json text) with
    | Some transactions => (report_and_return transactions, st3)
    | None =>
        if (retry_count <? 1)%Z
        then extract_transactions_from_pdf generate_content json_loads
               pdf_path (retry_count + 1) st3
        else (Returned (JArray []), st3)
    end
end.
Proof.
simp extract_transactions_from_pdf. unfold request.
cbn [extract_transactions_from_pdf_unfold_clause_1].
cbv zeta.
destruct (json_loads (clean_response (generate_content pdf_path (requests st))))
  as [v|] eqn:Hdirect.
- reflexivity.
- cbn [extract_transactions_from_pdf_unfold_clause_1_clause_1].
  destruct (json_loads (try_fix_truncated_json
              (clean_response (generate_content pdf_path (requests st)))))
    as [v|] eqn:Hfixed.
  + reflexivity.
  + cbn. destruct (Z_lt_dec retry_count 1) as [Hlt|Hge]; cbn; destruct (Z.ltb_spec retry_count 1); try lia; reflexivity.
Qed.


End LadderFacts.


(* ===================================================================== *)
(** ** Properties of the source adapters *)
(* ===================================================================== *)

Section AdapterFacts.

Variable datetime : Type.
Variable strptime : string -> string -> option datetime.
Variable strftime : datetime -> string -> string.
Variable parse_capital_one : Codec.text -> option (list CapitalOneRow).
Variable parse_discover : Codec.text -> option (list DiscoverRow).
Variable parse_chase : Codec.text -> option (list ChaseRow).

(** Latin-1 decodes every content. *)
Lemma latin_1_total (content : Codec.file_bytes) :
  Codec.decode Codec.latin_1 content = Some (Codec.values content).
Proof. reflexivity. Qed.

(** The loop over the encodings never ends with [df is None]. *)
Lemma try_encodings_finds (A : Type) (parse : Codec.text -> option A)
  (content : Codec.file_bytes) :
  try_encodings parse content encodings <> Ok None.
Proof.
  unfold encodings. cbn [try_encodings]. unfold read_csv.
  destruct (Codec.decode Codec.utf_8 content) as [t|].
  - destruct (parse t); discriminate.
  - rewrite latin_1_total.
    destruct (parse (Codec.values content)); discriminate.
Qed.

(** The loop itself raises nothing but what [read_csv] raised. *)
Lemma try_encodings_raises (A : Type) (parse : Codec.text -> option A)
  (content : Codec.file_bytes) (candidates : list Codec.encoding) (e : exn) :
  try_encodings parse content candidates = Raise e -> e = ReadError.
Proof.
  induction candidates as [|c cs IH]; cbn [try_encodings]; [discriminate|].
  destruct (read_csv parse content c); [discriminate | exact IH |].
  intros H. now injection H.
Qed.

Lemma read_with_fallback_reads (A : Type) (parse : Codec.text -> option A)
  (file_path p : string) (content : Codec.file_bytes) :
  read_with_fallback parse file_path content <> Raise (CouldNotRead p).
Proof.
  unfold read_with_fallback.
  pose proof (try_encodings_finds A parse content) as Hfinds.
  pose proof (try_encodings_raises A parse content encodings) as Hraises.
  destruct (try_encodings parse content encodings) as [[df|]|e];
    cbn [bind]; try discriminate.
  - now elim Hfinds.
  - intros Heq. injection Heq as ->. discriminate (Hraises _ eq_refl).
Qed.

Lemma bind_raise (A B : Type) (m : result A) (k : A -> result B) (e : exn) :
  bind m k = Raise e ->
  m = Raise e \/ exists a, m = Ok a /\ k a = Raise e.
Proof.
  destruct m as [a|e']; cbn [bind]; intros H.
  - right. now exists a.
  - left. now injection H as ->.
Qed.

(** C10. In every adapter the branch that raises "Could not read ... with
    any encoding" is unreachable: Latin-1, the second candidate, decodes
    every content, so the loop over the encodings never leaves [df]
    unset, whatever the file holds and whatever the parser does with the
    decoded text. *)
Theorem could_not_read_unreachable
  (file_path p : string) (content : Codec.file_bytes) :
  In Codec.latin_1 encodings
  /\ Codec.decode Codec.latin_1 content <> None
  /\ try_encodings parse_capital_one content encodings <> Ok None
  /\ try_encodings parse_discover content encodings <> Ok None
  /\ try_encodings parse_chase content encodings <> Ok None
  /\ load_capital_one strptime strftime parse_capital_one file_path content
     <> Raise (CouldNotRead p)
  /\ load_discover strptime strftime parse_discover file_path content
     <> Raise (CouldNotRead p)
  /\ load_chase parse_chase file_path content <> Raise (CouldNotRead p).
Proof.
  split; [right; left; reflexivity|].
  split; [rewrite latin_1_total; discriminate|].
  repeat (split; [apply try_encodings_finds|]).
  repeat split; intros H; apply bind_raise in H as [H | [df [_ H]]];
    try discriminate; revert H; apply read_with_fallback_reads.
Qed.

(** A file that is not UTF-8 is read under Latin-1. *)
Example latin_1_file_is_read (A : Type) (df : A) :
  Codec.decode Codec.utf_8 latin_1_file = None
  /\ read_with_fallback (reads df) "csv/Chase_Extracted_Transactions.csv"
       latin_1_file = Ok df.
Proof. split; vm_compute; reflexivity. Qed.

Lemma bind_ok (A B : Type) (m : result A) (k : A -> result B) (b : B) :
  bind m k = Ok b -> exists a, m = Ok a /\ k a = Ok b.
Proof.
  destruct m as [a|e]; cbn [bind]; intros H; [now exists a | discriminate].
Qed.

(** C9 (amended). The Discover adapter only produces strictly positive
    amounts.  The CapitalOne adapter produces the rows that have a Debit
    value, so its amounts are present but of either sign, and the Chase
    adapter produces every row that it reads, the amount as read. *)
Theorem adapter_amounts
  (file_path : string) (content : Codec.file_bytes) (df : DataFrame) :
  (load_discover strptime strftime parse_discover file_path content = Ok df ->
   positive_amounts df = true)
  /\ (load_capital_one strptime strftime parse_capital_one file_path content
      = Ok df ->
      forallb (fun r => notna (amount r)) df = true)
  /\ (load_chase parse_chase file_path content = Ok df ->
      exists rows,
        read_with_fallback parse_chase file_path content = Ok rows
        /\ map amount df = map ch_amount rows).
Proof.
  split; [|split]; intros H; apply bind_ok in H as [rows [Hread H]];
    injection H as <-.
  - unfold positive_amounts. rewrite forallb_forall. intros r Hr.
    apply in_map_iff in Hr as [x [<- Hx]]. cbn [amount].
    apply filter_In in Hx as [Hx _]. apply filter_In in Hx as [_ Hx].
    exact Hx.
  - rewrite forallb_forall. intros r Hr.
    apply in_map_iff in Hr as [x [<- Hx]]. cbn [amount].
    apply filter_In in Hx as [_ Hx]. exact Hx.
  - exists rows. split; [exact Hread|]. rewrite map_map. reflexivity.
Qed.

End AdapterFacts.

Lemma adapter_amounts_witness :
  exists df,
    load_discover no_strptime no_strftime (reads discover_export)
      "csv/Discover_2025.csv" discover_file = Ok df
    /\ positive_amounts df = true.
Proof.
  eexists. split; [reflexivity|].
  apply (adapter_amounts unit no_strptime no_strftime
           (reads []) (reads discover_export) (reads [])
           "csv/Discover_2025.csv" discover_file).
  reflexivity.
Defined.

(** The Chase adapter lets a negative amount through, and the CapitalOne
    adapter a zero and a negative Debit. *)
Lemma adapters_pass_non_positive_amounts :
  (exists df,
     load_chase (reads chase_extraction)
       "csv/Chase_Extracted_Transactions.csv" chase_file = Ok df
     /\ positive_amounts df = false)
  /\ (exists df,
        load_capital_one no_strptime no_strftime
          (reads capital_one_export) "csv/CapitalOne_2025.csv"
          capital_one_file
        = Ok df
        /\ positive_amounts df = false).
Proof. split; eexists; split; reflexivity. Qed.

(* ===================================================================== *)
(** ** Further properties of the rule engine *)
(* ===================================================================== *)

Lemma set_label_twice (r : Row) (l l' : option string) :
  set_label (set_label r l) l' = set_label r l'.
Proof. reflexivity. Qed.

(** X1. [apply_labels] changes nothing but the label column: it keeps every
    row, in order, with its date, description, amount, category, card and
    source. *)
Theorem apply_labels_only_labels (df : DataFrame) :
  map (fun r => set_label r None) (apply_labels df)
  = map (fun r => set_label r None) df.
Proof.
  rewrite apply_labels_rowwise, map_map. apply map_ext. intros r.
  unfold classify_row.
  destruct (run_steps_set_label steps (set_label r (category r))) as [l ->].
  reflexivity.
Qed.

(** X2. Rows are labelled independently of each other: the frame is
    labelled as its rows would be one by one, so labelling commutes with
    concatenation and the label of a row does not depend on its
    neighbours. *)
Theorem apply_labels_row_by_row (df1 df2 : DataFrame) :
  apply_labels (df1 ++ df2)%list
  = (apply_labels df1 ++ apply_labels df2)%list
  /\ apply_labels (df1 ++ df2)%list
     = flat_map (fun r => apply_labels [r]) (df1 ++ df2)%list.
Proof.
  split.
  - rewrite !apply_labels_rowwise. apply map_app.
  - rewrite apply_labels_rowwise.
    induction (df1 ++ df2)%list as [|r df IH]; [reflexivity|].
    cbn [map flat_map]. rewrite IH, (apply_labels_rowwise [r]). reflexivity.
Qed.

Lemma steps_need_description :
  existsb (fun s => hit s None) steps = false.
Proof. vm_compute. reflexivity. Qed.

(** X3. A transaction without a description is selected by no rule: its
    label is its category. *)
Theorem missing_description_keeps_category
  (df : DataFrame) (i : nat) (t : Row) :
  nth_error df i = Some t ->
  description t = None ->
  exists t',
    nth_error (apply_labels df) i = Some t' /\ label t' = category t.
Proof.
  intros Hi Hd. exists (classify_row t). split.
  - rewrite apply_labels_rowwise. now apply map_nth_error.
  - unfold classify_row. rewrite run_steps_no_hit; [reflexivity|].
    cbn [description set_label]. rewrite Hd. exact steps_need_description.
Qed.

Lemma missing_description_keeps_category_witness :
  exists t',
    nth_error (apply_labels [undescribed_row]) 0 = Some t'
    /\ label t' = Some "Merchandise".
Proof.
  apply (missing_description_keeps_category [undescribed_row] 0
           undescribed_row); reflexivity.
Defined.

(** Where a label comes from: the label before the run, or an assignment
    that selected the row in some state of its label. *)
Lemma run_steps_provenance (ss : list step) (r : Row) (T : string) :
  label (run_steps ss r) = Some T ->
  label r = Some T
  \/ exists s l,
       In s ss /\ target s = T /\ hit s (description r) = true
       /\ guard s (set_label r l) = true.
Proof.
  revert r; induction ss as [|s ss IH]; intros r H; [now left|].
  rewrite run_steps_cons in H. apply IH in H as [H | (s' & l & Hin & HT & Hh & Hg)].
  - unfold assign_row in H. destruct (mask s r) eqn:Hm.
    + right. exists s, (label r). cbn [label set_label] in H.
      injection H as <-. unfold mask in Hm.
      apply andb_true_iff in Hm as [Hh Hg]. rewrite set_label_label.
      repeat split; [now left | assumption | assumption].
    + now left.
  - right. exists s', l.
    rewrite assign_row_description in Hh.
    destruct (assign_row_set_label s r) as [l0 E]. rewrite E in Hg.
    rewrite set_label_twice in Hg.
    repeat split; [now right | assumption | assumption | assumption].
Qed.

Lemma classify_row_provenance (t : Row) (T : string) :
  label (classify_row t) = Some T ->
  category t = Some T
  \/ exists s l, In s steps /\ target s = T /\ hit s (description t) = true
                 /\ guard s (set_label t l) = true.
Proof.
  unfold classify_row. intros HT.
  apply run_steps_provenance in HT as [H | (s & l & Hin & Ht & Hh & Hg)].
  - left. exact H.
  - right. exists s, l.
    split; [exact Hin | split; [exact Ht | split; [exact Hh | exact Hg]]].
Qed.

Lemma nth_error_apply_labels (df : DataFrame) (i : nat) (t t' : Row) :
  nth_error df i = Some t ->
  nth_error (apply_labels df) i = Some t' ->
  t' = classify_row t.
Proof.
  intros Hi Hi'.
  rewrite apply_labels_rowwise, (map_nth_error _ _ _ Hi) in Hi'.
  now injection Hi'.
Qed.

(** X4. No label without a match: after [apply_labels] a label is the
    original category, or the target of a rule whose test selects the
    description. *)
Theorem label_provenance (df : DataFrame) (i : nat) (t t' : Row) (T : string) :
  nth_error df i = Some t ->
  nth_error (apply_labels df) i = Some t' ->
  label t' = Some T ->
  category t = Some T
  \/ exists s, In s steps /\ target s = T /\ hit s (description t) = true.
Proof.
  intros Hi Hi' HT.
  rewrite (nth_error_apply_labels df i t t' Hi Hi') in HT.
  apply classify_row_provenance in HT as [H | (s & l & Hin & Ht & Hh & _)].
  - left. exact H.
  - right. exists s. split; [exact Hin | split; [exact Ht | exact Hh]].
Qed.

Lemma label_provenance_witness :
  category netflix_row = Some "Netflix"
  \/ exists s, In s steps /\ target s = "Netflix"
               /\ hit s (description netflix_row) = true.
Proof.
  apply (label_provenance [netflix_row] 0 netflix_row
           (classify_row netflix_row) "Netflix").
  - reflexivity.
  - rewrite apply_labels_rowwise. reflexivity.
  - vm_compute. reflexivity.
Defined.

Lemma in_for_patterns (s : step) (ps : list string) (l : string) :
  In s (for_patterns ps l) ->
  exists p, In p ps /\ s = mkStep (contains (Text.upper p)) always l.
Proof.
  unfold for_patterns. intros H. apply in_map_iff in H as [p [<- Hp]].
  now exists p.
Qed.

Lemma in_for_table (s : step) (table : list (list string * string)) :
  In s (for_table table) ->
  exists ps l p, In (ps, l) table /\ In p ps
                 /\ s = mkStep (contains (Text.upper p)) always l.
Proof.
  unfold for_table. intros H. apply in_flat_map in H as [[ps l] [Ht Hs]].
  apply in_for_patterns in Hs as [p [Hp ->]]. now exists ps, l, p.
Qed.

Lemma in_gas_station_steps (s : step) :
  In s gas_station_steps ->
  exists p,
    In p gas_station_patterns
    /\ (s = mkStep (contains (Text.upper p))
              (fun r => amount_lt_30 (amount r)) "Gas Station Indiscretion"
        \/ s = mkStep (contains (Text.upper p))
                 (fun r => amount_ge_30 (amount r)) "Gasoline").
Proof.
  unfold gas_station_steps. intros H. apply in_flat_map in H as [p [Hp Hs]].
  exists p. split; [exact Hp|].
  destruct Hs as [<- | [<- | []]]; [now left | now right].
Qed.

Lemma in_restaurant_steps (s : step) :
  In s restaurant_steps ->
  exists ps l p, In (ps, l) restaurant_labels /\ In p ps
                 /\ s = mkStep (contains (Text.upper p)) label_not_vending l.
Proof.
  unfold restaurant_steps. intros H.
  apply in_flat_map in H as [[ps l] [Ht Hs]].
  apply in_map_iff in Hs as [p [<- Hp]]. now exists ps, l, p.
Qed.

Lemma in_vending_final_steps (s : step) :
  In s vending_final_steps ->
  exists p, In p vending_final_patterns
            /\ s = mkStep (contains_literal (Text.upper p)) always
                     "Vending Machine".
Proof.
  unfold vending_final_steps. intros H.
  apply in_map_iff in H as [p [<- Hp]]. now exists p.
Qed.

(** Only the gas-station loop assigns the two gas labels. *)
Lemma gas_labels_elsewhere :
  forallb (fun s => negb (String.eqb (target s) "Gasoline")
                    && negb (String.eqb (target s) "Gas Station Indiscretion"))
    (vending_steps ++ [simplebills_step] ++ steps_after_gas) = true.
Proof. vm_compute. reflexivity. Qed.

Lemma gas_label_step (s : step) (T : string) :
  T = "Gasoline" \/ T = "Gas Station Indiscretion" ->
  In s steps -> target s = T -> In s gas_station_steps.
Proof.
  intros HT Hin Ht. unfold steps in Hin.
  apply in_app_or in Hin as [Hin | Hin];
    [| apply in_app_or in Hin as [Hin | Hin];
       [| apply in_app_or in Hin as [Hin | Hin]; [exact Hin|] ] ].
  all: exfalso; pose proof gas_labels_elsewhere as Hall;
    rewrite forallb_forall in Hall;
    assert (Hs : In s (vending_steps ++ [simplebills_step] ++ steps_after_gas))
      by (apply in_or_app; first
            [ left; exact Hin
            | right; apply in_or_app; first [left; exact Hin | right; exact Hin] ]);
    specialize (Hall s Hs); rewrite Ht in Hall;
    destruct HT as [-> | ->]; discriminate Hall.
Qed.

(** X5. The gas labels respect the threshold: after [apply_labels], a
    "Gasoline" label that is not the original category sits on an amount
    of 30 or more, and a "Gas Station Indiscretion" label that is not the
    original category on an amount below 30; in both cases a gas-station
    pattern occurs in the description.  In particular a missing amount
    (NaN) never receives a gas label. *)
Theorem gas_labels_respect_threshold
  (df : DataFrame) (i : nat) (t t' : Row) :
  nth_error df i = Some t ->
  nth_error (apply_labels df) i = Some t' ->
  (label t' = Some "Gasoline" ->
   category t = Some "Gasoline"
   \/ (amount_ge_30 (amount t) = true
       /\ existsb (fun p => contains (Text.upper p) (description t))
            gas_station_patterns = true))
  /\ (label t' = Some "Gas Station Indiscretion" ->
      category t = Some "Gas Station Indiscretion"
      \/ (amount_lt_30 (amount t) = true
          /\ existsb (fun p => contains (Text.upper p) (description t))
               gas_station_patterns = true)).
Proof.
  intros Hi Hi'. rewrite (nth_error_apply_labels df i t t' Hi Hi').
  split; intros HT;
    apply classify_row_provenance in HT as [H | (s & l & Hin & Ht & Hh & Hg)];
    try (left; exact H); right.
  - apply gas_label_step with (T := "Gasoline") in Hin;
      [| now left | exact Ht].
    apply in_gas_station_steps in Hin as [p [Hp [-> | ->]]];
      [discriminate Ht|].
    cbn [hit guard amount set_label] in Hh, Hg. split; [exact Hg|].
    apply existsb_exists. now exists p.
  - apply gas_label_step with (T := "Gas Station Indiscretion") in Hin;
      [| now right | exact Ht].
    apply in_gas_station_steps in Hin as [p [Hp [-> | ->]]];
      [|discriminate Ht].
    cbn [hit guard amount set_label] in Hh, Hg. split; [exact Hg|].
    apply existsb_exists. now exists p.
Qed.

Lemma gas_labels_respect_threshold_witness :
  category (set_amount shell_row 30) = Some "Gasoline"
  \/ (amount_ge_30 (amount (set_amount shell_row 30)) = true
      /\ existsb
           (fun p => contains (Text.upper p)
                       (description (set_amount shell_row 30)))
           gas_station_patterns = true).
Proof.
  refine (proj1 (gas_labels_respect_threshold [set_amount shell_row 30] 0
                   (set_amount shell_row 30)
                   (classify_row (set_amount shell_row 30)) eq_refl _) _).
  - rewrite apply_labels_rowwise. reflexivity.
  - vm_compute. reflexivity.
Defined.

(** X6. The last match wins: when an unconditional assignment selects the
    description and no assignment after it does, its target is the final
    label, whatever the earlier assignments did. *)
Theorem last_match_wins
  (df : DataFrame) (i : nat) (t : Row)
  (before after : list step) (s : step) :
  steps = (before ++ s :: after)%list ->
  (forall x, guard s x = true) ->
  nth_error df i = Some t ->
  hit s (description t) = true ->
  existsb (fun s' => hit s' (description t)) after = false ->
  exists t',
    nth_error (apply_labels df) i = Some t' /\ label t' = Some (target s).
Proof.
  intros Hsplit Hguard Hi Hhit Hafter. exists (classify_row t). split.
  - rewrite apply_labels_rowwise. now apply map_nth_error.
  - unfold classify_row. rewrite Hsplit, run_steps_app, run_steps_cons.
    rewrite run_steps_no_hit.
    + rewrite assign_row_selected; [reflexivity | | apply Hguard].
      rewrite run_steps_description. exact Hhit.
    + rewrite assign_row_description, run_steps_description. exact Hafter.
Qed.

Lemma steps_around_alipay :
  steps = ((steps_before_google ++ [google_generic_step])
           ++ alipay_step :: steps_after_alipay)%list.
Proof.
  unfold steps, steps_after_gas, steps_before_google, steps_after_alipay.
  rewrite <- !app_assoc. reflexivity.
Qed.

Lemma last_match_wins_witness :
  exists t',
    nth_error (apply_labels [alipay_row]) 0 = Some t'
    /\ label t' = Some "Alipay Transfer".
Proof.
  apply (last_match_wins [alipay_row] 0 alipay_row
           (steps_before_google ++ [google_generic_step])
           steps_after_alipay alipay_step steps_around_alipay).
  - reflexivity.
  - reflexivity.
  - vm_compute. reflexivity.
  - vm_compute. reflexivity.
Defined.

Lemma contains_upper_blind (pat : string) : upper_blind (contains pat).
Proof. intros d1 d2 H. unfold contains. now rewrite H. Qed.

Lemma contains_literal_upper_blind (pat : string) :
  upper_blind (contains_literal pat).
Proof. intros d1 d2 H. unfold contains_literal. now rewrite H. Qed.

Lemma always_reads_nothing : reads_amount_category_label always.
Proof. intros r1 r2 _ _ _. reflexivity. Qed.

Lemma label_not_vending_reads_label :
  reads_amount_category_label label_not_vending.
Proof. intros r1 r2 _ _ H. unfold label_not_vending. now rewrite H. Qed.

Lemma label_is_category_reads :
  reads_amount_category_label label_is_category.
Proof. intros r1 r2 _ Hc Hl. unfold label_is_category. now rewrite Hc, Hl. Qed.

(** Every assignment tests the description through its upper-cased text
    and the rest of the row through amount, category and label. *)
Lemma steps_read_little (s : step) :
  In s steps ->
  upper_blind (hit s) /\ reads_amount_category_label (guard s).
Proof.
  intros Hin. unfold steps in Hin. split_in 3 Hin.
  - apply in_for_patterns in Hin as (p & _ & ->).
    split; [apply contains_upper_blind | apply always_reads_nothing].
  - destruct Hin as [<- | []].
    split; [apply contains_upper_blind | apply always_reads_nothing].
  - apply in_gas_station_steps in Hin as (p & _ & [-> | ->]);
      (split; [apply contains_upper_blind |]);
      intros r1 r2 Ha _ _; cbn [guard]; now rewrite Ha.
  - unfold steps_after_gas in Hin. split_in 5 Hin.
    + unfold merchant_steps in Hin. split_in 12 Hin.
      all: try (apply in_for_patterns in Hin as (p & _ & ->);
                split; [apply contains_upper_blind
                       | apply always_reads_nothing]).
      all: try (apply in_for_table in Hin as (ps & l & p & _ & _ & ->);
                split; [apply contains_upper_blind
                       | apply always_reads_nothing]).
      destruct Hin as [<- | [<- | [<- | []]]];
        (split; [| apply always_reads_nothing]);
        try apply contains_upper_blind.
      intros d1 d2 H. cbn [hit amazon_shopping_step].
      now rewrite (contains_upper_blind "AMAZON" d1 d2 H),
        (contains_upper_blind "PRIME" d1 d2 H),
        (contains_upper_blind "KINDLE" d1 d2 H),
        (contains_upper_blind "WEB SERVICES" d1 d2 H).
    + destruct Hin as [<- | []].
      split; [apply contains_upper_blind | apply label_is_category_reads].
    + destruct Hin as [<- | []].
      split; [apply contains_upper_blind | apply always_reads_nothing].
    + apply in_for_patterns in Hin as (p & _ & ->).
      split; [apply contains_upper_blind | apply always_reads_nothing].
    + apply in_restaurant_steps in Hin as (ps & l & p & _ & _ & ->).
      split; [apply contains_upper_blind
             | apply label_not_vending_reads_label].
    + apply in_vending_final_steps in Hin as (p & _ & ->).
      split; [apply contains_literal_upper_blind
             | apply always_reads_nothing].
Qed.

Lemma hit_alike (h : option string -> bool) (d1 d2 : option string) :
  upper_blind h ->
  option_map Text.upper d1 = option_map Text.upper d2 ->
  h d1 = h d2.
Proof.
  intros Hb H. destruct d1 as [a|], d2 as [b|]; try discriminate.
  - injection H as H. now apply Hb.
  - reflexivity.
Qed.

Lemma run_steps_alike (ss : list step) (r1 r2 : Row) :
  (forall s, In s ss ->
     upper_blind (hit s) /\ reads_amount_category_label (guard s)) ->
  alike r1 r2 -> label r1 = label r2 ->
  label (run_steps ss r1) = label (run_steps ss r2).
Proof.
  revert r1 r2; induction ss as [|s ss IH]; intros r1 r2 Hss Hal Hl;
    [exact Hl|].
  rewrite !run_steps_cons.
  destruct (Hss s (or_introl eq_refl)) as [Hh Hg].
  destruct Hal as (Ha & Hc & Hd).
  assert (Hm : mask s r1 = mask s r2).
  { unfold mask. now rewrite (hit_alike _ _ _ Hh Hd), (Hg r1 r2 Ha Hc Hl). }
  apply IH.
  - intros s' Hs'. apply Hss. now right.
  - unfold alike. rewrite !assign_row_amount, !assign_row_description.
    destruct (assign_row_set_label s r1) as [l1 ->].
    destruct (assign_row_set_label s r2) as [l2 ->].
    now repeat split.
  - unfold assign_row. rewrite Hm. now destruct (mask s r2).
Qed.

(** X7. The label is a function of the amount, the category and the
    upper-cased description: two frames whose rows agree on these, one by
    one, receive the same labels, whatever the case of their descriptions
    and whatever their dates, cards, sources and previous labels. *)
Theorem labels_ignore_case (df1 df2 : DataFrame) :
  Forall2 alike df1 df2 ->
  map label (apply_labels df1) = map label (apply_labels df2).
Proof.
  intros H. rewrite !apply_labels_rowwise, !map_map.
  induction H as [|r1 r2 l1 l2 Hal _ IH]; [reflexivity|].
  cbn [map]. rewrite IH. f_equal.
  unfold classify_row. apply run_steps_alike.
  - exact steps_read_little.
  - destruct Hal as (Ha & Hc & Hd). now repeat split.
  - cbn [label set_label]. now destruct Hal as (_ & Hc & _).
Qed.

Lemma labels_ignore_case_witness :
  map label (apply_labels [netflix_row])
  = map label (apply_labels [netflix_row_lower_case]).
Proof.
  apply (labels_ignore_case [netflix_row] [netflix_row_lower_case]).
  repeat constructor.
Defined.

Lemma steps_around_amazon_shopping :
  steps = (steps_before_amazon_shopping
           ++ amazon_shopping_step :: steps_after_amazon_shopping)%list.
Proof.
  unfold steps, steps_after_gas, merchant_steps,
    steps_before_amazon_shopping, steps_after_amazon_shopping.
  rewrite <- !app_assoc. reflexivity.
Qed.

Lemma amazon_shopping_elsewhere :
  forallb (fun s => negb (String.eqb (target s) "Amazon Shopping"))
    (steps_before_amazon_shopping ++ steps_after_amazon_shopping) = true.
Proof. vm_compute. reflexivity. Qed.

(** X8. "Amazon Shopping" is kept from Prime, Kindle and AWS charges: after
    [apply_labels] that label is the original category or sits on a
    description in which AMAZON occurs and none of PRIME, KINDLE and WEB
    SERVICES does. *)
Theorem amazon_shopping_excludes
  (df : DataFrame) (i : nat) (t t' : Row) :
  nth_error df i = Some t ->
  nth_error (apply_labels df) i = Some t' ->
  label t' = Some "Amazon Shopping" ->
  category t = Some "Amazon Shopping"
  \/ (contains "AMAZON" (description t) = true
      /\ contains "PRIME" (description t) = false
      /\ contains "KINDLE" (description t) = false
      /\ contains "WEB SERVICES" (description t) = false).
Proof.
  intros Hi Hi' HT. rewrite (nth_error_apply_labels df i t t' Hi Hi') in HT.
  apply classify_row_provenance in HT as [H | (s & l & Hin & Ht & Hh & _)];
    [left; exact H | right].
  rewrite steps_around_amazon_shopping in Hin.
  apply in_app_or in Hin as [Hin | [<- | Hin]].
  - exfalso. pose proof amazon_shopping_elsewhere as Hall.
    rewrite forallb_forall in Hall.
    specialize (Hall s (in_or_app _ _ _ (or_introl Hin))).
    rewrite Ht in Hall. discriminate Hall.
  - cbn [hit amazon_shopping_step] in Hh.
    repeat (apply andb_true_iff in Hh as [Hh ?]).
    repeat split; [exact Hh | | |]; now apply negb_true_iff.
  - exfalso. pose proof amazon_shopping_elsewhere as Hall.
    rewrite forallb_forall in Hall.
    specialize (Hall s (in_or_app _ _ _ (or_intror Hin))).
    rewrite Ht in Hall. discriminate Hall.
Qed.

Lemma amazon_shopping_excludes_witness :
  category amazon_marketplace_row = Some "Amazon Shopping"
  \/ (contains "AMAZON" (description amazon_marketplace_row) = true
      /\ contains "PRIME" (description amazon_marketplace_row) = false
      /\ contains "KINDLE" (description amazon_marketplace_row) = false
      /\ contains "WEB SERVICES" (description amazon_marketplace_row) = false).
Proof.
  apply (amazon_shopping_excludes [amazon_marketplace_row] 0
           amazon_marketplace_row (classify_row amazon_marketplace_row)).
  - reflexivity.
  - rewrite apply_labels_rowwise. reflexivity.
  - vm_compute. reflexivity.
Defined.

(* ===================================================================== *)
(** ** More facts about text *)
(* ===================================================================== *)

Lemma string_app_nil_r (s : string) : s ++ EmptyString = s.
Proof. induction s as [|c s IH]; simpl; [reflexivity | now rewrite IH]. Qed.

Lemma rev_acc_spec (s acc : string) :
  Text.rev_acc s acc = Text.rev s ++ acc.
Proof.
  unfold Text.rev. revert acc. induction s as [|c s IH]; intros acc;
    [reflexivity|].
  cbn [Text.rev_acc]. rewrite IH, (IH (String c EmptyString)).
  now rewrite string_app_assoc.
Qed.

Lemma rev_cons (c : ascii) (s : string) :
  Text.rev (String c s) = Text.rev s ++ String c EmptyString.
Proof. unfold Text.rev at 1. cbn [Text.rev_acc]. apply rev_acc_spec. Qed.

Lemma rev_app (a b : string) : Text.rev (a ++ b) = Text.rev b ++ Text.rev a.
Proof.
  induction a as [|c a IH].
  - cbn. now rewrite string_app_nil_r.
  - cbn [append]. rewrite !rev_cons, IH. apply string_app_assoc.
Qed.

Lemma rev_involutive (s : string) : Text.rev (Text.rev s) = s.
Proof.
  induction s as [|c s IH]; [reflexivity|].
  rewrite rev_cons, rev_app, IH. reflexivity.
Qed.

(** Induction from the end of a text. *)
Lemma string_rev_ind (P : string -> Prop) :
  P EmptyString ->
  (forall s c, P s -> P (s ++ String c EmptyString)) ->
  forall s, P s.
Proof.
  intros H0 Hs s. rewrite <- (rev_involutive s).
  induction (Text.rev s) as [|c r IH]; [exact H0|].
  rewrite rev_cons. now apply Hs.
Qed.

Lemma blank_app (a b : string) : blank (a ++ b) = blank a && blank b.
Proof.
  induction a as [|c a IH]; [reflexivity|].
  cbn [append blank]. now rewrite IH, andb_assoc.
Qed.

Lemma blank_rev (w : string) : blank (Text.rev w) = blank w.
Proof.
  induction w as [|c w IH]; [reflexivity|].
  rewrite rev_cons, blank_app, IH. cbn [blank].
  now rewrite andb_true_r, andb_comm.
Qed.

(** What [lstrip] removes and what it leaves. *)
Lemma lstrip_spec (s : string) :
  exists w,
    s = w ++ Text.lstrip s /\ blank w = true
    /\ (Text.lstrip s = EmptyString
        \/ exists c x, Text.lstrip s = String c x /\ Text.isspace c = false).
Proof.
  induction s as [|c s (w & Hs & Hw & Hl)].
  - exists EmptyString. split; [reflexivity | split; [reflexivity | now left]].
  - cbn [Text.lstrip]. destruct (Text.isspace c) eqn:Hc.
    + exists (String c w). cbn [append blank]. rewrite Hc, Hw, <- Hs.
      split; [reflexivity | split; [reflexivity | exact Hl]].
    + exists EmptyString.
      split; [reflexivity | split; [reflexivity | right; now exists c, s]].
Qed.

Lemma lstrip_fixed (c : ascii) (x : string) :
  Text.isspace c = false -> Text.lstrip (String c x) = String c x.
Proof. intros H. cbn [Text.lstrip]. now rewrite H. Qed.

(** What [rstrip] removes and what it leaves. *)
Lemma rstrip_spec (s : string) :
  exists w,
    s = Text.rstrip s ++ w /\ blank w = true
    /\ (Text.rstrip s = EmptyString
        \/ exists x c, Text.rstrip s = x ++ String c EmptyString
                       /\ Text.isspace c = false).
Proof.
  unfold Text.rstrip.
  destruct (lstrip_spec (Text.rev s)) as (w & Hs & Hw & Hl).
  exists (Text.rev w). split; [|split].
  - rewrite <- rev_app, <- Hs. symmetry. apply rev_involutive.
  - now rewrite blank_rev.
  - destruct Hl as [-> | (c & x & -> & Hc)]; [now left | right].
    exists (Text.rev x), c. now rewrite rev_cons.
Qed.

Lemma rstrip_snoc (x : string) (c : ascii) :
  Text.isspace c = false ->
  Text.rstrip (x ++ String c EmptyString) = x ++ String c EmptyString.
Proof.
  intros H. unfold Text.rstrip. rewrite rev_app. cbn [Text.rev Text.rev_acc append].
  rewrite lstrip_fixed by exact H.
  rewrite rev_cons, rev_involutive. reflexivity.
Qed.




Lemma strip_fixed (c d : ascii) (x : string) :
  Text.isspace c = false -> Text.isspace d = false ->
  Text.strip (String c (x ++ String d EmptyString))
  = String c (x ++ String d EmptyString).
Proof.
  intros Hc Hd. unfold Text.strip. rewrite lstrip_fixed by exact Hc.
  exact (rstrip_snoc (String c x) d Hd).
Qed.

Lemma count_app (c : ascii) (a b : string) :
  Text.count c (a ++ b) = Text.count c a + Text.count c b.
Proof.
  induction a as [|x a IH]; [reflexivity|].
  cbn [append Text.count]. rewrite IH. lia.
Qed.

Lemma count_blank (c : ascii) (w : string) :
  Text.isspace c = false -> blank w = true -> Text.count c w = 0.
Proof.
  intros Hc. induction w as [|x w IH]; [reflexivity|].
  cbn [blank Text.count]. intros H. apply andb_true_iff in H as [Hx Hw].
  destruct (Ascii.eqb x c) eqn:E.
  - apply Ascii.eqb_eq in E. subst x. now rewrite Hc in Hx.
  - now rewrite IH.
Qed.

Lemma count_rstrip (c : ascii) (s : string) :
  Text.isspace c = false -> Text.count c (Text.rstrip s) = Text.count c s.
Proof.
  intros Hc. destruct (rstrip_spec s) as (w & Hs & Hw & _).
  rewrite Hs at 2. rewrite count_app, (count_blank c w Hc Hw). lia.
Qed.

Lemma count_repeat_same (c : ascii) (n : Z) :
  Text.count c (Text.repeat_char c n) = Z.to_nat n.
Proof.
  unfold Text.repeat_char. induction (Z.to_nat n) as [|k IH]; [reflexivity|].
  cbn [repeat string_of_list_ascii Text.count]. now rewrite Ascii.eqb_refl, IH.
Qed.

Lemma count_repeat_other (c d : ascii) (n : Z) :
  Ascii.eqb d c = false -> Text.count c (Text.repeat_char d n) = 0.
Proof.
  intros H. unfold Text.repeat_char.
  induction (Z.to_nat n) as [|k IH]; [reflexivity|].
  cbn [repeat string_of_list_ascii Text.count]. now rewrite H, IH.
Qed.

Lemma endswith_spec (p s : string) :
  Text.endswith p s = true <-> exists x, s = x ++ p.
Proof.
  unfold Text.endswith. rewrite startswith_spec. split.
  - intros [t Ht]. exists (Text.rev t).
    rewrite <- (rev_involutive s), Ht, rev_app, rev_involutive. reflexivity.
  - intros [x ->]. exists (Text.rev x). apply rev_app.
Qed.

Lemma string_length_app (a b : string) :
  String.length (a ++ b) = String.length a + String.length b.
Proof. induction a as [|c a IH]; [reflexivity|]. cbn. now rewrite IH. Qed.

Lemma substring_prefix (x y : string) :
  substring 0 (String.length x) (x ++ y) = x.
Proof.
  induction x as [|c x IH].
  - cbn. now destruct y.
  - cbn. now rewrite IH.
Qed.

Lemma drop_last_app (x p : string) :
  Text.drop_last (String.length p) (x ++ p) = x.
Proof.
  unfold Text.drop_last. rewrite string_length_app.
  replace (String.length x + String.length p - String.length p)
    with (String.length x) by lia.
  apply substring_prefix.
Qed.

(* ===================================================================== *)
(** ** Further properties of the adapters and of the merge *)
(* ===================================================================== *)

Section MoreAdapterFacts.

Variable datetime : Type.
Variable strptime : string -> string -> option datetime.
Variable strftime : datetime -> string -> string.
Variable parse_capital_one : Codec.text -> option (list CapitalOneRow).
Variable parse_discover : Codec.text -> option (list DiscoverRow).
Variable parse_chase : Codec.text -> option (list ChaseRow).
Variable sort_values_by_date : DataFrame -> result DataFrame.



(** X10. What the loop over the encodings amounts to: a file that is valid
    UTF-8 is read as UTF-8, any other file is read as Latin-1, and the
    candidates after Latin-1 are never used; an error of the parser on the
    decoded text is raised as it is, without trying another encoding. *)
Theorem encoding_fallback_is_utf_8_or_latin_1
  (A : Type) (parse : Codec.text -> option A)
  (file_path : string) (content : Codec.file_bytes) :
  try_encodings parse content encodings
  = try_encodings parse content [Codec.utf_8; Codec.latin_1]
  /\ read_with_fallback parse file_path content
     = match Codec.decode Codec.utf_8 content with
       | Some t => parsed (parse t)
       | None => parsed (parse (Codec.values content))
       end.
Proof.
  unfold read_with_fallback, encodings. cbn [try_encodings]. unfold read_csv.
  cbn [Codec.decode Codec.decode_latin_1].
  destruct (Codec.decode_utf_8 (Codec.values content)) as [t|].
  - destruct (parse t); split; reflexivity.
  - destruct (parse (Codec.values content)); split; reflexivity.
Qed.

(** X11. What the Discover adapter puts on every record it returns: the
    card name, the name of the file without its directories, no label, and
    never one of the two excluded categories. *)
Theorem discover_records_are_tagged
  (file_path : string) (content : Codec.file_bytes) (df : DataFrame) :
  load_discover strptime strftime parse_discover file_path content = Ok df ->
  Forall (fun r => card r = "Discover"
                   /\ source r = path_name file_path
                   /\ label r = None
                   /\ category r <> Some "Payments and Credits"
                   /\ category r <> Some "Awards and Rebate Credits") df.
Proof.
  intros H. apply bind_ok in H as [rows [_ H]]. injection H as <-.
  apply Forall_forall. intros r Hr. apply in_map_iff in Hr as [x [<- Hx]].
  cbn [card source label category].
  apply filter_In in Hx as [_ Hx]. apply negb_true_iff in Hx.
  repeat split; intros E; rewrite E in Hx; discriminate Hx.
Qed.

Lemma load_all_raises
  (load : string -> Codec.file_bytes -> result DataFrame)
  (files : list (string * Codec.file_bytes))
  (f : string) (c : Codec.file_bytes) (e : exn) :
  In (f, c) files -> load f c = Raise e ->
  exists e', load_all load files = Raise e'.
Proof.
  induction files as [|[f' c'] files IH]; intros Hin Hload; [destruct Hin|].
  cbn [load_all]. destruct Hin as [E | Hin].
  - injection E as -> ->. rewrite Hload. now exists e.
  - destruct (load f' c') as [df|e1]; cbn [bind]; [|now exists e1].
    destruct (IH Hin Hload) as [e' ->]. now exists e'.
Qed.

(** X12. One file that cannot be read aborts the whole merge: when the
    adapter of any CapitalOne, Discover or Chase file raises, so does
    [merge_all_csvs], and no frame is returned for the other files. *)
Theorem merge_aborts_on_unreadable_file
  (capital_one_files discover_files chase_files
     : list (string * Codec.file_bytes))
  (f : string) (c : Codec.file_bytes) (e : exn) :
  (In (f, c) capital_one_files
   /\ load_capital_one strptime strftime parse_capital_one f c = Raise e)
  \/ (In (f, c) discover_files
      /\ load_discover strptime strftime parse_discover f c = Raise e)
  \/ (In (f, c) chase_files /\ load_chase parse_chase f c = Raise e) ->
  exists e',
    merge_all_csvs strptime strftime parse_capital_one parse_discover
      parse_chase sort_values_by_date capital_one_files discover_files
      chase_files = Raise e'.
Proof.
  intros H. unfold merge_all_csvs.
  destruct (load_all (load_capital_one strptime strftime parse_capital_one)
              capital_one_files) as [cs|e1] eqn:E1; cbn [bind];
    [|now exists e1].
  destruct (load_all (load_discover strptime strftime parse_discover)
              discover_files) as [ds|e2] eqn:E2; cbn [bind];
    [|now exists e2].
  destruct (load_all (load_chase parse_chase) chase_files) as [hs|e3] eqn:E3;
    cbn [bind]; [|now exists e3].
  exfalso.
  destruct H as [[Hin Hl] | [[Hin Hl] | [Hin Hl]]].
  - destruct (load_all_raises _ _ f c e Hin Hl) as [e' E]. congruence.
  - destruct (load_all_raises _ _ f c e Hin Hl) as [e' E]. congruence.
  - destruct (load_all_raises _ _ f c e Hin Hl) as [e' E]. congruence.
Qed.

End MoreAdapterFacts.


(** A Windows-1252 file is read as Latin-1: the euro sign arrives as the
    control character U+0080. *)
Example cp1252_file_is_read_as_latin_1 :
  Codec.decode Codec.utf_8 cp1252_file = None
  /\ read_with_fallback Some "csv/Chase_Extracted_Transactions.csv"
       cp1252_file
     = Ok (Codec.values cp1252_file)
  /\ Codec.decode Codec.cp1252 cp1252_file
     <> Codec.decode Codec.latin_1 cp1252_file.
Proof. repeat split; vm_compute; congruence. Qed.

Lemma discover_records_are_tagged_witness :
  exists df,
    load_discover no_strptime no_strftime (reads discover_export)
      "csv/Discover_2025.csv" discover_file = Ok df
    /\ Forall (fun r => card r = "Discover"
                        /\ source r = path_name "csv/Discover_2025.csv"
                        /\ label r = None
                        /\ category r <> Some "Payments and Credits"
                        /\ category r <> Some "Awards and Rebate Credits") df.
Proof.
  eexists. split; [reflexivity|].
  apply (discover_records_are_tagged unit no_strptime no_strftime
           (reads discover_export) "csv/Discover_2025.csv" discover_file).
  reflexivity.
Defined.

Lemma merge_aborts_on_unreadable_file_witness :
  exists e',
    merge_all_csvs no_strptime no_strftime unreadable
      (reads discover_export) (reads chase_extraction) Ok
      [("csv/CapitalOne_2025.csv", capital_one_file)]
      [("csv/Discover_2025.csv", discover_file)]
      [("csv/Chase_Extracted_Transactions.csv", chase_file)]
    = Raise e'.
Proof.
  apply (merge_aborts_on_unreadable_file unit no_strptime no_strftime
           unreadable (reads discover_export) (reads chase_extraction) Ok
           _ _ _ "csv/CapitalOne_2025.csv" capital_one_file ReadError).
  left. split; [left; reflexivity | reflexivity].
Defined.

(* ===================================================================== *)
(** ** Properties of the repair and of the clean-up *)
(* ===================================================================== *)

Lemma lstrip_blank_app (w s : string) :
  blank w = true -> Text.lstrip (w ++ s) = Text.lstrip s.
Proof.
  induction w as [|c w IH]; [reflexivity|].
  cbn [blank append Text.lstrip]. intros H.
  apply andb_true_iff in H as [Hc Hw]. rewrite Hc. now apply IH.
Qed.

Lemma rstrip_app_blank (s w : string) :
  blank w = true -> Text.rstrip (s ++ w) = Text.rstrip s.
Proof.
  intros H. unfold Text.rstrip.
  now rewrite rev_app, lstrip_blank_app by now rewrite blank_rev.
Qed.

(** White space around a text that starts and ends with other characters
    is all that [strip] removes. *)
Lemma strip_around (w1 w2 x : string) (c d : ascii) :
  blank w1 = true -> blank w2 = true ->
  Text.isspace c = false -> Text.isspace d = false ->
  Text.strip (w1 ++ String c (x ++ String d EmptyString) ++ w2)
  = String c (x ++ String d EmptyString).
Proof.
  intros H1 H2 Hc Hd. unfold Text.strip.
  rewrite lstrip_blank_app by exact H1.
  cbn [append]. rewrite lstrip_fixed by exact Hc.
  change (String c ((x ++ String d EmptyString) ++ w2))
    with (String c (x ++ String d EmptyString) ++ w2).
  rewrite rstrip_app_blank by exact H2.
  exact (rstrip_snoc (String c x) d Hd).
Qed.

Lemma split_on_nonempty (sep : ascii) (s : string) :
  Text.split_on sep s <> [].
Proof.
  destruct s as [|c s]; cbn [Text.split_on]; [discriminate|].
  destruct (Ascii.eqb c sep); [discriminate|].
  destruct (Text.split_on sep s); discriminate.
Qed.

Lemma split_on_app (sep : ascii) (x y : string) :
  Text.split_on sep (x ++ String sep y)
  = (Text.split_on sep x ++ Text.split_on sep y)%list.
Proof.
  induction x as [|c x IH].
  - cbn [append Text.split_on]. now rewrite Ascii.eqb_refl.
  - cbn [append Text.split_on]. destruct (Ascii.eqb c sep).
    + now rewrite IH.
    + rewrite IH. pose proof (split_on_nonempty sep x) as Hx.
      destruct (Text.split_on sep x) as [|w ws]; [now elim Hx | reflexivity].
Qed.

Lemma split_on_free (sep : ascii) (x : string) :
  free_of sep x = true -> Text.split_on sep x = [x].
Proof.
  unfold free_of. induction x as [|c x IH]; [reflexivity|].
  cbn [Text.count Text.split_on]. destruct (Ascii.eqb c sep).
  - discriminate.
  - intros H. now rewrite IH.
Qed.

(** Joining what was split gives the text back. *)
Lemma join_split_on (sep : ascii) (s : string) :
  Text.join sep (Text.split_on sep s) = s.
Proof.
  induction s as [|c s IH]; [reflexivity|].
  cbn [Text.split_on]. pose proof (split_on_nonempty sep s) as Hs.
  destruct (Ascii.eqb c sep) eqn:E.
  - apply Ascii.eqb_eq in E. subst c.
    destruct (Text.split_on sep s) as [|w ws]; [now elim Hs|].
    cbn [Text.join append]. cbn [Text.join] in IH. now rewrite IH.
  - destruct (Text.split_on sep s) as [|w ws]; [now elim Hs|].
    destruct ws as [|w' ws].
    + cbn [Text.join] in *. now rewrite IH.
    + cbn [Text.join append] in *. now rewrite IH.
Qed.

(** X13. A fenced answer is unwrapped to its body: whatever the language
    tag after the opening fence and whatever white space surrounds the
    answer, the clean-up returns exactly the text between the fence lines
    (unless that text itself ends with a fence). *)
Theorem clean_response_unwraps_fence (w1 w2 lang body : string) :
  blank w1 = true -> blank w2 = true ->
  free_of "010" lang = true ->
  Text.endswith "```" body = false ->
  clean_response
    (w1 ++ ("```" ++ lang ++ String "010" (body ++ String "010" "```")) ++ w2)
  = body.
Proof.
  intros H1 H2 Hlang Hbody. unfold clean_response.
  assert (Hshape :
    "```" ++ lang ++ String "010" (body ++ String "010" "```")
    = String "`" (("``" ++ lang ++ String "010" (body ++ String "010" "``"))
                  ++ String "`" EmptyString)).
  { cbn [append]. do 3 f_equal.
    rewrite !string_app_assoc. cbn [append]. do 2 f_equal.
    rewrite !string_app_assoc. reflexivity. }
  rewrite Hshape, strip_around by (assumption || reflexivity).
  rewrite <- Hshape. clear Hshape.
  replace (Text.startswith "```"
             ("```" ++ lang ++ String "010" (body ++ String "010" "```")))
    with true by reflexivity.
  replace ("```" ++ lang ++ String "010" (body ++ String "010" "```"))
    with (("```" ++ lang) ++ String "010" (body ++ String "010" "```"))
    by (now rewrite string_app_assoc).
  rewrite !split_on_app.
  rewrite (split_on_free "010" ("```" ++ lang))
    by (unfold free_of in *; rewrite count_app; cbn; exact Hlang).
  replace (Text.split_on "010" "```") with ["```"] by reflexivity.
  set (L := Text.split_on "010" body).
  replace (last (["```" ++ lang] ++ L ++ ["```"]) EmptyString) with "```"
    by (rewrite app_assoc; symmetry; apply last_last).
  replace (removelast (tl (["```" ++ lang] ++ L ++ ["```"]))) with L
    by (cbn [app tl]; symmetry; apply removelast_last).
  replace (String.eqb (Text.strip "```") "```") with true by reflexivity.
  subst L. rewrite join_split_on, Hbody. reflexivity.
Qed.

Lemma clean_response_unwraps_fence_witness :
  clean_response fenced_answer = Text.quoted "[{'amount': 45.23}]".
Proof.
  apply (clean_response_unwraps_fence "  " (String "010" EmptyString) "json"
           (Text.quoted "[{'amount': 45.23}]")); reflexivity.
Defined.

Lemma space_not_special (c : ascii) :
  Text.isspace c = true ->
  Ascii.eqb c "\" = false /\ Ascii.eqb c Text.dquote = false
  /\ Ascii.eqb c "," = false /\ Ascii.eqb c "{" = false
  /\ Ascii.eqb c "}" = false /\ Ascii.eqb c "[" = false
  /\ Ascii.eqb c "]" = false.
Proof.
  destruct c as [[] [] [] [] [] [] [] []]; vm_compute; intros H;
    try discriminate H; repeat split.
Qed.

Lemma ends_in_string_scan (s : string) (i e : bool) :
  ends_in_string s i e = fst (scan_state s i e).
Proof.
  revert i e; induction s as [|c s IH]; intros i e; [reflexivity|].
  cbn [ends_in_string scan_state].
  destruct e; [apply IH|].
  destruct (Ascii.eqb c "\"); [apply IH|].
  destruct (Ascii.eqb c Text.dquote); apply IH.
Qed.

Lemma scan_state_app (a b : string) (i e : bool) :
  scan_state (a ++ b) i e
  = scan_state b (fst (scan_state a i e)) (snd (scan_state a i e)).
Proof.
  revert i e; induction a as [|c a IH]; intros i e; [reflexivity|].
  cbn [append scan_state].
  destruct e; [apply IH|].
  destruct (Ascii.eqb c "\"); [apply IH|].
  destruct (Ascii.eqb c Text.dquote); apply IH.
Qed.

(** Characters other than quotes and backslashes never open or close a
    string. *)
Lemma scan_state_inert (w : string) (i e : bool) :
  inert w = true -> fst (scan_state w i e) = i.
Proof.
  revert e; induction w as [|c w IH]; intros e H; [reflexivity|].
  cbn [inert] in H. apply andb_true_iff in H as [H Hw].
  apply andb_true_iff in H as [Hb Hq].
  apply negb_true_iff in Hb, Hq.
  cbn [scan_state]. rewrite Hb, Hq. destruct e; now apply IH.
Qed.

Lemma blank_inert (w : string) : blank w = true -> inert w = true.
Proof.
  induction w as [|c w IH]; [reflexivity|].
  cbn [blank inert]. intros H. apply andb_true_iff in H as [Hc Hw].
  destruct (space_not_special c Hc) as (-> & -> & _). now rewrite IH.
Qed.

Lemma repeat_char_inert (c : ascii) (n : Z) :
  Ascii.eqb c "\" = false -> Ascii.eqb c Text.dquote = false ->
  inert (Text.repeat_char c n) = true.
Proof.
  intros Hb Hq. unfold Text.repeat_char.
  induction (Z.to_nat n) as [|k IH]; [reflexivity|].
  cbn [repeat string_of_list_ascii inert]. now rewrite Hb, Hq, IH.
Qed.

Lemma endswith_last_char (c d : ascii) (x : string) :
  Text.endswith (String c EmptyString) (x ++ String d EmptyString)
  = Ascii.eqb c d.
Proof.
  unfold Text.endswith. rewrite rev_app. cbn. apply andb_true_r.
Qed.

(** The text that [try_fix_truncated_json] closes: the input, a closing
    quote if it ends inside a string, without trailing white space and
    without one trailing comma. *)
Lemma try_fix_shape (s : string) :
  exists core,
    try_fix_truncated_json s
    = (core
       ++ Text.repeat_char "}"
            (Z.of_nat (Text.count "{" s) - Z.of_nat (Text.count "}" s)))
      ++ Text.repeat_char "]"
           (Z.of_nat (Text.count "[" s) - Z.of_nat (Text.count "]" s))
    /\ (forall c, Text.isspace c = false -> Ascii.eqb c Text.dquote = false ->
                  Ascii.eqb c "," = false ->
                  Text.count c core = Text.count c s)
    /\ fst (scan_state core false false)
       = (fst (scan_state s false false) && snd (scan_state s false false)).
Proof.
  unfold try_fix_truncated_json. cbv zeta.
  rewrite ends_in_string_scan.
  destruct (scan_state s false false) as [i e] eqn:Hscan. cbn [fst snd].
  destruct i.
  - (* the text ends inside a string: a quote is appended *)
    rewrite rstrip_snoc by reflexivity.
    rewrite endswith_last_char.
    replace (Ascii.eqb "," Text.dquote) with false by reflexivity.
    exists (s ++ String Text.dquote EmptyString). split; [reflexivity|]. split.
    + intros c _ Hq _. rewrite count_app. cbn [Text.count].
      rewrite Ascii.eqb_sym, Hq. lia.
    + rewrite scan_state_app, Hscan. cbn [fst snd scan_state].
      destruct e; reflexivity.
  - (* the text ends outside a string *)
    destruct (rstrip_spec s) as (w & Hs & Hw & _).
    assert (Hstrip : fst (scan_state (Text.rstrip s) false false) = false).
    { rewrite Hs, scan_state_app in Hscan.
      pose proof (scan_state_inert w
                    (fst (scan_state (Text.rstrip s) false false))
                    (snd (scan_state (Text.rstrip s) false false))
                    (blank_inert w Hw)) as H.
      rewrite Hscan in H. cbn [fst] in H. now symmetry. }
    destruct (Text.endswith "," (Text.rstrip s)) eqn:Hcomma.
    + apply endswith_spec in Hcomma as [x Hx].
      exists x. rewrite Hx.
      pose proof (drop_last_app x ",") as Hdrop.
      cbn [String.length] in Hdrop. rewrite Hdrop.
      split; [reflexivity|]. split.
      * intros c Hc _ Hcm. rewrite <- (count_rstrip c s Hc), Hx, count_app.
        cbn [Text.count]. rewrite Ascii.eqb_sym, Hcm. lia.
      * rewrite Hx, scan_state_app in Hstrip.
        rewrite (scan_state_inert "," _ _ eq_refl) in Hstrip. exact Hstrip.
    + exists (Text.rstrip s). split; [reflexivity|]. split.
      * intros c Hc _ _. now apply count_rstrip.
      * exact Hstrip.
Qed.

(** X14. The repair balances what it counts: braces and brackets that the
    text opens are never removed, and closing ones are appended until each
    kind has as many closers as openers; closers in excess are left as
    they are. *)
Theorem try_fix_balances (s : string) :
  let fixed := try_fix_truncated_json s in
  Text.count "{" fixed = Text.count "{" s
  /\ Text.count "[" fixed = Text.count "[" s
  /\ Text.count "}" fixed = Nat.max (Text.count "}" s) (Text.count "{" s)
  /\ Text.count "]" fixed = Nat.max (Text.count "]" s) (Text.count "[" s).
Proof.
  cbv zeta. destruct (try_fix_shape s) as (core & -> & Hcount & _).
  rewrite !count_app.
  rewrite !count_repeat_same, !count_repeat_other by reflexivity.
  rewrite !Hcount by reflexivity. lia.
Qed.

(** X15. The repair closes an open string unless the text stops right
    after a backslash: the repaired text ends inside a string exactly when
    the input ends inside a string and its last character is an unescaped
    backslash, which escapes the quote that the repair appends. *)
Theorem try_fix_closes_string (s : string) :
  ends_in_string (try_fix_truncated_json s) false false
  = fst (scan_state s false false) && snd (scan_state s false false).
Proof.
  destruct (try_fix_shape s) as (core & -> & _ & Hscan).
  rewrite ends_in_string_scan, !scan_state_app.
  rewrite !scan_state_inert by (apply repeat_char_inert; reflexivity).
  exact Hscan.
Qed.

(* ===================================================================== *)
(** ** The ladder for any retry count *)
(* ===================================================================== *)

Section MoreLadderFacts.

Variable generate_content : string -> nat -> string.
Variable json_loads : string -> option json.
Variable pdf_path : string.

Lemma report_and_return_has_length (v : json) :
  match report_and_return v with
  | Returned (JNull | JBool _ | JNumber _) => False
  | _ => True
  end.
Proof. destruct v; exact I. Qed.

(** What a call does to the session and where its result comes from. *)
Lemma ladder_invariant (retry_count : Z) (st : session) :
  let run :=
    extract_transactions_from_pdf generate_content json_loads pdf_path
      retry_count st in
  requests st < requests (snd run)
  /\ requests (snd run) <= requests st + 1 + Z.to_nat (1 - retry_count)
  /\ (exists events, trace (snd run) = (trace st ++ events)%list)
  /\ (fst run = Returned (JArray [])
      \/ exists n v,
           requests st <= n < requests (snd run)
           /\ (json_loads (clean_response (generate_content pdf_path n))
               = Some v
               \/ json_loads
                    (try_fix_truncated_json
                       (clean_response (generate_content pdf_path n)))
                  = Some v)
           /\ fst run = report_and_return v).
Proof.
  cbv zeta.
  remember (Z.to_nat (1 - retry_count)) as k eqn:Hk.
  revert retry_count st Hk.
  induction k as [|k IH]; intros retry_count st Hk;
    rewrite extract_unfold; cbv zeta;
    (destruct (json_loads
                 (clean_response (generate_content pdf_path (requests st))))
       as [v|] eqn:Hdirect;
     [ cbn [fst snd requests trace log];
       split; [lia|]; split; [lia|]; split;
       [ rewrite <- app_assoc; eexists; reflexivity |];
       right; exists (requests st), v;
       split; [lia|]; split; [left; exact Hdirect | reflexivity]
     |]);
    (destruct (json_loads
                 (try_fix_truncated_json
                    (clean_response
                       (generate_content pdf_path (requests st)))))
       as [w|] eqn:Hfixed;
     [ cbn [fst snd requests trace log];
       split; [lia|]; split; [lia|]; split;
       [ rewrite <- !app_assoc; eexists; reflexivity |];
       right; exists (requests st), w;
       split; [lia|]; split; [right; exact Hfixed | reflexivity]
     |]).
  - destruct (Z.ltb_spec retry_count 1) as [Hlt|Hge]; [lia|].
    cbn [fst snd requests trace log].
    split; [lia|]. split; [lia|]. split.
    + rewrite <- !app_assoc. eexists. reflexivity.
    + left. reflexivity.
  - destruct (Z.ltb_spec retry_count 1) as [Hlt|Hge]; [|lia].
    match goal with
    | |- context [extract_transactions_from_pdf _ _ _ _ ?s] =>
        specialize (IH (retry_count + 1)%Z s ltac:(lia));
        set (st3 := s) in *
    end.
    assert (Hreq : requests st3 = S (requests st)) by reflexivity.
    assert (Htr : exists ev, trace st3 = (trace st ++ ev)%list).
    { subst st3. cbn [trace log]. rewrite <- !app_assoc.
      eexists. reflexivity. }
    clearbody st3.
    destruct IH as (H1 & H2 & [ev2 H3] & H4).
    destruct Htr as [ev1 Htr].
    split; [lia|]. split; [lia|]. split.
    + exists (ev1 ++ ev2)%list. rewrite H3, Htr, app_assoc. reflexivity.
    + destruct H4 as [H4 | (n & v & Hn & Hv & Hret)]; [left; exact H4|].
      right. exists n, v. split; [lia|]. split; assumption.
Qed.

(** X16. The ladder from any [retry_count] and any state of the session:
    a call sends at least one request and at most
    [1 + max 0 (1 - retry_count)] of them, so a call that starts at a count
    of 1 or more never retries; it only appends to the trace; and what it
    returns is the empty list or the decoding of one of the responses it
    asked for, taken as it is or repaired. *)
Theorem ladder_from_any_retry_count (retry_count : Z) (st : session) :
  let run :=
    extract_transactions_from_pdf generate_content json_loads pdf_path
      retry_count st in
  requests st < requests (snd run)
  /\ requests (snd run) <= requests st + 1 + Z.to_nat (1 - retry_count)
  /\ (exists events, trace (snd run) = (trace st ++ events)%list)
  /\ (fst run = Returned (JArray [])
      \/ exists n v,
           requests st <= n < requests (snd run)
           /\ (json_loads (clean_response (generate_content pdf_path n))
               = Some v
               \/ json_loads
                    (try_fix_truncated_json
                       (clean_response (generate_content pdf_path n)))
                  = Some v)
           /\ fst run = report_and_return v)
  /\ ((1 <= retry_count)%Z -> requests (snd run) = S (requests st)).
Proof.
  cbv zeta.
  destruct (ladder_invariant retry_count st) as (Hmin & Hmax & Htrace & Hout).
  repeat split; try assumption.
  intros Hcount. replace (Z.to_nat (1 - retry_count)) with 0 in Hmax by lia.
  lia.
Qed.

(** X17. A call never returns a number, a boolean or [null]: a response
    that decodes to one of them ends the call in the [TypeError] of its
    progress message, so what is returned is an array, an object or a
    string. *)
Theorem returned_value_has_length (retry_count : Z) (st : session) :
  match fst (extract_transactions_from_pdf generate_content json_loads
               pdf_path retry_count st) with
  | Returned (JNull | JBool _ | JNumber _) => False
  | _ => True
  end.
Proof.
  destruct (ladder_invariant retry_count st) as (_ & _ & _ & H).
  cbv zeta in H. destruct H as [-> | (n & v & _ & _ & ->)]; [exact I|].
  apply report_and_return_has_length.
Qed.

End MoreLadderFacts.

(* ===================================================================== *)
(** ** Properties of the statement run and of the saved file *)
(* ===================================================================== *)

Lemma dict_get_set_same (k : string) (v : value) (d : dict) :
  dict_get k (dict_set k v d) = Some v.
Proof.
  induction d as [|[k' v'] d IH]; cbn [dict_set dict_get].
  - now rewrite String.eqb_refl.
  - destruct (String.eqb k' k) eqn:E; cbn [dict_get]; rewrite E;
      [reflexivity | exact IH].
Qed.

Lemma dict_get_set_other (k k' : string) (v : value) (d : dict) :
  k <> k' -> dict_get k' (dict_set k v d) = dict_get k' d.
Proof.
  intros Hne. induction d as [|[k0 v0] d IH]; cbn [dict_set dict_get].
  - destruct (String.eqb_spec k k'); [contradiction | reflexivity].
  - destruct (String.eqb_spec k0 k) as [->|Hk0]; cbn [dict_get].
    + destruct (String.eqb_spec k k'); [contradiction | reflexivity].
    + destruct (String.eqb k0 k'); [reflexivity | exact IH].
Qed.

Lemma dict_set_keys (k : string) (v : value) (d : dict) :
  keys (dict_set k v d)
  = if in_dec string_dec k (keys d) then keys d else (keys d ++ [k])%list.
Proof.
  unfold keys. induction d as [|[k0 v0] d IH]; cbn [dict_set map app].
  - reflexivity.
  - destruct (String.eqb_spec k0 k) as [->|Hk0]; cbn [map fst].
    + destruct (in_dec string_dec k (k :: map fst d)) as [_|Hn];
        [reflexivity | elim Hn; now left].
    + rewrite IH.
      destruct (in_dec string_dec k (map fst d)) as [Hin|Hn];
        destruct (in_dec string_dec k (k0 :: map fst d)) as [Hin'|Hn'];
        try reflexivity.
      * elim Hn'. now right.
      * destruct Hin' as [E|Hin']; [now elim Hk0 | contradiction].
Qed.

Lemma dict_set_nodup (k : string) (v : value) (d : dict) :
  NoDup (keys d) -> NoDup (keys (dict_set k v d)).
Proof.
  intros Hd. rewrite dict_set_keys.
  destruct (in_dec string_dec k (keys d)) as [Hin|Hn]; [exact Hd|].
  apply NoDup_app; [exact Hd | repeat constructor; intros [] | ].
  intros x Hx [<-|[]]. contradiction.
Qed.

Lemma dict_get_keys (k : string) (d : dict) :
  dict_get k d <> None <-> In k (keys d).
Proof.
  unfold keys. induction d as [|[k0 v0] d IH]; cbn [dict_get map fst In].
  - split; [intros H; now elim H | intros []].
  - destruct (String.eqb_spec k0 k) as [->|Hne].
    + split; [now left | discriminate].
    + rewrite IH. split; [now right | intros [E|H]; [contradiction | exact H]].
Qed.

Lemma as_dict_rev (members : list (string * json)) :
  as_dict members
  = fold_right
      (fun m d => dict_set (Escapes.unescape (fst m)) (FromJson (snd m)) d)
      [] (rev members).
Proof. unfold as_dict. now rewrite <- fold_left_rev_right. Qed.

Lemma as_dict_nodup (members : list (string * json)) :
  NoDup (keys (as_dict members)).
Proof.
  rewrite as_dict_rev. induction (rev members) as [|m l IH]; cbn [fold_right].
  - constructor.
  - now apply dict_set_nodup.
Qed.

Lemma as_dict_get (k : string) (members : list (string * json)) :
  dict_get k (as_dict members)
  = option_map (fun m => FromJson (snd m)) (last_member k members).
Proof.
  unfold last_member. rewrite as_dict_rev.
  induction (rev members) as [|m l IH]; cbn [fold_right find].
  - reflexivity.
  - destruct (String.eqb_spec (Escapes.unescape (fst m)) k) as [<-|Hne].
    + now rewrite dict_get_set_same.
    + now rewrite dict_get_set_other.
Qed.

Lemma as_dict_keys (k : string) (members : list (string * json)) :
  In k (keys (as_dict members))
  <-> In k (map (fun m => Escapes.unescape (fst m)) members).
Proof.
  rewrite <- dict_get_keys, as_dict_get. unfold last_member.
  split.
  - destruct (find _ (rev members)) as [m|] eqn:E; [intros _ | intros H; now elim H].
    apply find_some in E as [Hin E]. apply String.eqb_eq in E. subst k.
    apply in_map_iff. exists m. split; [reflexivity | now apply in_rev].
  - intros Hin. apply in_map_iff in Hin as [m [<- Hin]].
    destruct (find _ (rev members)) as [m'|] eqn:E; [discriminate|].
    apply in_rev in Hin. apply (find_none _ _ E m) in Hin.
    now rewrite String.eqb_refl in Hin.
Qed.

(** X18. What the two assignments do to a record of the answer: the card
    and the source are set to the tags whatever the service wrote under
    those names, every other key keeps its value, which is that of the last
    member of that name, no key is repeated, and the record has the keys of
    the answer and the two tags. *)
Theorem tagging_keeps_the_record
  (card source : string) (members : list (string * json)) :
  exists d,
    tag card source (JObject members) = Some d
    /\ dict_get "card" d = Some (Str card)
    /\ dict_get "source" d = Some (Str source)
    /\ (forall k, k <> "card" -> k <> "source" ->
        dict_get k d
        = option_map (fun m => FromJson (snd m)) (last_member k members))
    /\ NoDup (keys d)
    /\ (forall k, In k (keys d)
        <-> k = "card" \/ k = "source"
            \/ In k (map (fun m => Escapes.unescape (fst m)) members)).
Proof.
  eexists. split; [reflexivity|].
  split; [rewrite dict_get_set_other by discriminate;
          apply dict_get_set_same|].
  split; [apply dict_get_set_same|].
  split.
  { intros k Hc Hs.
    rewrite !dict_get_set_other by congruence. apply as_dict_get. }
  split; [apply dict_set_nodup, dict_set_nodup, as_dict_nodup|].
  intros k. rewrite <- as_dict_keys, <- !dict_get_keys.
  destruct (string_dec k "source") as [->|Hs].
  { rewrite dict_get_set_same. split; [intros _; right; now left | discriminate]. }
  rewrite dict_get_set_other by congruence.
  destruct (string_dec k "card") as [->|Hc].
  { rewrite dict_get_set_same. split; [intros _; now left | discriminate]. }
  rewrite dict_get_set_other by congruence.
  split; [intros H; right; now right | intros [E|[E|H]]; [contradiction.. | exact H]].
Qed.

Lemma card_of_folders :
  map card_of pdf_folders = [ "Chase-2040"; "Chase-7557" ].
Proof. reflexivity. Qed.

Lemma tag_items_tagged (card source : string) (items : list json)
  (ds : list dict) :
  tag_items card source items = Some ds ->
  Forall2 (fun txn d => tag card source txn = Some d) items ds.
Proof.
  revert ds. induction items as [|txn items IH]; intros ds; cbn [tag_items].
  - intros H. injection H as <-. constructor.
  - destruct (tag card source txn) as [d|] eqn:E; [|discriminate].
    destruct (tag_items card source items) as [ds'|]; [|discriminate].
    intros H. injection H as <-. constructor; [exact E | now apply IH].
Qed.

Lemma tag_transactions_tagged (card source : string) (transactions : json)
  (ds : list dict) :
  tag_transactions card source transactions = Some ds ->
  Forall (fun d => exists members,
            d = dict_set "source" (Str source)
                  (dict_set "card" (Str card) (as_dict members))) ds.
Proof.
  destruct transactions as [| | |body|items|members];
    cbn [tag_transactions]; try discriminate.
  - destruct body; [|discriminate]. intros H. injection H as <-. constructor.
  - intros H. apply tag_items_tagged in H.
    induction H as [|txn d items ds Ht _ IH]; constructor; [|exact IH].
    destruct txn; try discriminate Ht. cbn [tag] in Ht. injection Ht as <-.
    now eexists.
  - destruct members; [|discriminate]. intros H. injection H as <-.
    constructor.
Qed.

Section StatementFacts.

Variable generate_content : string -> nat -> string.
Variable json_loads : string -> option json.
Variable pdf_files : string -> option (list (string * string)).

Lemma extract_requests (pdf_file : string) (st : session) :
  let run :=
    extract_transactions_from_pdf generate_content json_loads pdf_file 0 st in
  requests st + 1 <= requests (snd run) <= requests st + 2.
Proof.
  cbv zeta.
  destruct (ladder_invariant generate_content json_loads pdf_file 0 st)
    as (H1 & H2 & _).
  change (Z.to_nat (1 - 0)) with 1 in H2. lia.
Qed.

(** What the loop over one folder adds, and how many requests it makes. *)
Lemma process_folder_collects (folder : string)
  (files : list (string * string)) :
  forall (done : list (string * string)) (acc : list dict) (st : session),
  pdf_files folder = Some (done ++ files)%list ->
  let run :=
    process_folder generate_content json_loads (card_of folder) files acc st
  in
  requests (snd run) <= requests st + 2 * length files
  /\ forall all_transactions,
       fst run = Collected all_transactions ->
       requests st + length files <= requests (snd run)
       /\ exists new,
            all_transactions = (acc ++ new)%list
            /\ Forall (from_folder pdf_files folder) new.
Proof.
  induction files as [|[pdf_file name] files IH]; intros done acc st Hfiles;
    cbv zeta; cbn [process_folder].
  - cbn [fst snd length]. split; [lia|]. intros all H. injection H as <-.
    split; [lia|]. exists []. split; [now rewrite app_nil_r | constructor].
  - pose proof (extract_requests pdf_file st) as Hreq. cbv zeta in Hreq.
    destruct (extract_transactions_from_pdf generate_content json_loads
                pdf_file 0 st) as [[transactions|] st1];
      cbn [fst snd] in Hreq |- *.
    2:{ cbn [fst snd length]. split; [lia | discriminate]. }
    destruct (tag_transactions (card_of folder) name transactions)
      as [tagged|] eqn:Htag.
    2:{ cbn [fst snd length]. split; [lia | discriminate]. }
    specialize (IH (done ++ [(pdf_file, name)])%list (acc ++ tagged)%list st1).
    rewrite <- app_assoc in IH. specialize (IH Hfiles). cbv zeta in IH.
    destruct IH as [Hle IH]. cbn [length]. split; [lia|].
    intros all Hall. destruct (IH all Hall) as (Hge & new & -> & Hnew).
    split; [lia|]. exists (tagged ++ new)%list.
    split; [now rewrite app_assoc|].
    apply Forall_app. split; [|exact Hnew].
    apply tag_transactions_tagged in Htag.
    eapply Forall_impl; [|exact Htag].
    intros d [members ->]. exists (done ++ (pdf_file, name) :: files)%list,
      pdf_file, name, members.
    split; [exact Hfiles|]. split; [|reflexivity].
    apply in_or_app. right. now left.
Qed.

Lemma process_all_pdfs_collects (st : session) :
  let run := process_all_pdfs generate_content json_loads pdf_files st in
  requests (snd run) <= requests st + 2 * length (listed pdf_files)
  /\ forall all_transactions,
       fst run = Collected all_transactions ->
       requests st + length (listed pdf_files) <= requests (snd run)
       /\ exists a b,
            all_transactions = (a ++ b)%list
            /\ Forall (from_folder pdf_files "PDF/2040") a
            /\ Forall (from_folder pdf_files "PDF/7557") b.
Proof.
  cbv zeta. unfold process_all_pdfs, listed, pdf_folders.
  cbn [process_folders flat_map]. rewrite app_nil_r, length_app.
  destruct (pdf_files "PDF/2040") as [files1|] eqn:E1.
  - pose proof (process_folder_collects "PDF/2040" files1 [] [] st E1) as H1.
    cbv zeta in H1.
    destruct (process_folder generate_content json_loads
                (card_of "PDF/2040") files1 [] st) as [[all1|] st1];
      cbn [fst snd] in H1; destruct H1 as [Hle1 H1].
    2:{ cbn [fst snd]. split; [lia | discriminate]. }
    destruct (H1 all1 eq_refl) as (Hge1 & a & Ha & Hfa).
    cbn [app] in Ha. subst all1.
    destruct (pdf_files "PDF/7557") as [files2|] eqn:E2.
    + pose proof (process_folder_collects "PDF/7557" files2 [] a st1 E2)
        as H2. cbv zeta in H2.
      destruct (process_folder generate_content json_loads
                  (card_of "PDF/7557") files2 a st1) as [[all2|] st2];
        cbn [fst snd] in H2 |- *; destruct H2 as [Hle2 H2].
      2:{ split; [lia | discriminate]. }
      split; [lia|]. intros all H. injection H as <-.
      destruct (H2 all2 eq_refl) as (Hge2 & b & -> & Hfb).
      split; [lia|]. now exists a, b.
    + cbn [fst snd length]. split; [lia|]. intros all H. injection H as <-.
      split; [lia|]. exists a, []. rewrite app_nil_r. now repeat split.
  - destruct (pdf_files "PDF/7557") as [files2|] eqn:E2.
    + pose proof (process_folder_collects "PDF/7557" files2 [] [] st E2)
        as H2. cbv zeta in H2.
      destruct (process_folder generate_content json_loads
                  (card_of "PDF/7557") files2 [] st) as [[all2|] st2];
        cbn [fst snd length] in H2 |- *; destruct H2 as [Hle2 H2].
      2:{ split; [lia | discriminate]. }
      split; [lia|]. intros all H. injection H as <-.
      destruct (H2 all2 eq_refl) as (Hge2 & b & Hb & Hfb).
      split; [lia|]. exists [], b. now repeat split.
    + cbn [fst snd length]. split; [lia|]. intros all H. injection H as <-.
      split; [lia|]. exists [], []. now repeat split.
Qed.

Lemma from_folder_tags (folder : string) (d : dict) :
  from_folder pdf_files folder d ->
  dict_get "card" d = Some (Str (card_of folder))
  /\ exists files pdf_file name,
       pdf_files folder = Some files /\ In (pdf_file, name) files
       /\ dict_get "source" d = Some (Str name).
Proof.
  intros (files & pdf_file & name & members & Hf & Hin & ->). split.
  - rewrite dict_get_set_other by discriminate. apply dict_get_set_same.
  - exists files, pdf_file, name. repeat split; try assumption.
    apply dict_get_set_same.
Qed.

(** X19. What a completed run returns: the transactions of the first
    folder before those of the second, each one carrying the card of its
    folder, [Chase-2040] or [Chase-7557], and as source the name of a file
    of that folder, whatever the service wrote under those names. *)
Theorem collected_transactions_are_tagged
  (st st' : session) (all_transactions : list dict) :
  process_all_pdfs generate_content json_loads pdf_files st
  = (Collected all_transactions, st') ->
  exists a b,
    all_transactions = (a ++ b)%list
    /\ Forall (fun d =>
                 dict_get "card" d = Some (Str "Chase-2040")
                 /\ exists files pdf_file name,
                      pdf_files "PDF/2040" = Some files
                      /\ In (pdf_file, name) files
                      /\ dict_get "source" d = Some (Str name)) a
    /\ Forall (fun d =>
                 dict_get "card" d = Some (Str "Chase-7557")
                 /\ exists files pdf_file name,
                      pdf_files "PDF/7557" = Some files
                      /\ In (pdf_file, name) files
                      /\ dict_get "source" d = Some (Str name)) b.
Proof.
  intros Hrun.
  destruct (process_all_pdfs_collects st) as [_ H]. cbv zeta in H.
  rewrite Hrun in H.
  destruct (H all_transactions eq_refl) as (_ & a & b & -> & Ha & Hb).
  exists a, b. split; [reflexivity|].
  split; (eapply Forall_impl; [|eassumption]); intros d Hd;
    apply from_folder_tags in Hd; exact Hd.
Qed.

(** X20. The requests of a run: never more than two for each file that
    the folders list, and at least one for each of them when the run
    completes; with no file listed, no request is sent and the result is
    empty. *)
Theorem requests_of_a_run (st : session) :
  let run := process_all_pdfs generate_content json_loads pdf_files st in
  requests (snd run) <= requests st + 2 * length (listed pdf_files)
  /\ (forall all_transactions,
        fst run = Collected all_transactions ->
        requests st + length (listed pdf_files) <= requests (snd run))
  /\ (listed pdf_files = [] -> run = (Collected [], st)).
Proof.
  cbv zeta. destruct (process_all_pdfs_collects st) as [Hle H].
  cbv zeta in H. split; [exact Hle|]. split.
  - intros all Hall. now destruct (H all Hall).
  - unfold listed, pdf_folders. cbn [flat_map]. rewrite app_nil_r.
    unfold process_all_pdfs, pdf_folders. cbn [process_folders].
    destruct (pdf_files "PDF/2040") as [files1|];
      destruct (pdf_files "PDF/7557") as [files2|]; intros Hnil.
    + apply app_eq_nil in Hnil as [-> ->]. reflexivity.
    + cbn [app] in Hnil. rewrite app_nil_r in Hnil. subst files1.
      reflexivity.
    + cbn [app] in Hnil. subst files2. reflexivity.
    + reflexivity.
Qed.

End StatementFacts.

Lemma tag_items_rejects (card source : string) (items : list json) :
  forallb is_object items = false -> tag_items card source items = None.
Proof.
  induction items as [|txn items IH]; cbn [forallb tag_items];
    [discriminate|].
  destruct txn; cbn [is_object tag andb]; try reflexivity.
  intros H. now rewrite (IH H).
Qed.

Section StatementCrash.

Variable generate_content : string -> nat -> string.
Variable json_loads : string -> option json.
Variable pdf_files : string -> option (list (string * string)).

Lemma process_folder_raises (card pdf_file name : string)
  (files : list (string * string)) :
  In (pdf_file, name) files ->
  (forall n, exists items,
      json_loads (clean_response (generate_content pdf_file n))
      = Some (JArray items)
      /\ forallb is_object items = false) ->
  forall acc st,
    fst (process_folder generate_content json_loads card files acc st)
    = TypeErrorRaised.
Proof.
  intros Hin Hbad.
  induction files as [|[p n] files IH]; [destruct Hin|].
  intros acc st. cbn [process_folder].
  destruct Hin as [E|Hin].
  - injection E as -> ->.
    rewrite extract_unfold. cbv zeta.
    destruct (Hbad (requests st)) as (items & -> & Hitems).
    cbn [report_and_return tag_transactions].
    now rewrite tag_items_rejects.
  - destruct (extract_transactions_from_pdf generate_content json_loads p 0
                st) as [[transactions|] st1]; [|reflexivity].
    destruct (tag_transactions card n transactions); [|reflexivity].
    apply (IH Hin).
Qed.

(** X21. One item that is not an object discards the run: when the
    answers about one listed file decode to a list that holds anything but
    objects, [process_all_pdfs] ends in [TypeError] from every state of
    the session, and returns nothing of what the other files gave. *)
Theorem one_bad_item_discards_the_run
  (folder pdf_file name : string) (files : list (string * string)) :
  In folder pdf_folders ->
  pdf_files folder = Some files ->
  In (pdf_file, name) files ->
  (forall n, exists items,
      json_loads (clean_response (generate_content pdf_file n))
      = Some (JArray items)
      /\ forallb is_object items = false) ->
  forall st,
    fst (process_all_pdfs generate_content json_loads pdf_files st)
    = TypeErrorRaised.
Proof.
  intros Hfolder Hfiles Hin Hbad st.
  unfold process_all_pdfs, pdf_folders. cbn [process_folders].
  destruct Hfolder as [<-|[<-|[]]].
  - rewrite Hfiles.
    pose proof (process_folder_raises (card_of "PDF/2040") pdf_file name
                  files Hin Hbad [] st) as H.
    destruct (process_folder generate_content json_loads
                (card_of "PDF/2040") files [] st) as [[all|] st1];
      [discriminate H | reflexivity].
  - destruct (pdf_files "PDF/2040") as [files1|].
    + destruct (process_folder generate_content json_loads
                  (card_of "PDF/2040") files1 [] st) as [[all|] st1];
        [|reflexivity].
      rewrite Hfiles.
      pose proof (process_folder_raises (card_of "PDF/7557") pdf_file name
                    files Hin Hbad all st1) as H.
      destruct (process_folder generate_content json_loads
                  (card_of "PDF/7557") files all st1) as [[all2|] st2];
        [discriminate H | reflexivity].
    + rewrite Hfiles.
      pose proof (process_folder_raises (card_of "PDF/7557") pdf_file name
                    files Hin Hbad [] st) as H.
      destruct (process_folder generate_content json_loads
                  (card_of "PDF/7557") files [] st) as [[all2|] st2];
        [discriminate H | reflexivity].
Qed.

End StatementCrash.

Lemma one_bad_item_discards_the_run_witness :
  fst (process_all_pdfs number_service Json.loads one_statement
         (mkSession 0 []))
  = TypeErrorRaised.
Proof.
  apply (one_bad_item_discards_the_run number_service Json.loads
           one_statement "PDF/2040" "/home/u/PDF/2040/january.pdf"
           "january.pdf"
           [ ("/home/u/PDF/2040/january.pdf", "january.pdf") ]).
  - left. reflexivity.
  - reflexivity.
  - left. reflexivity.
  - intros n. exists [ JNumber "1" ]. split; vm_compute; reflexivity.
Defined.

Lemma collected_transactions_are_tagged_witness :
  exists a b,
    [ [ ("date", FromJson (JString "2025-01-16"));
        ("amount", FromJson (JNumber "67.89"));
        ("card", Str "Chase-2040");
        ("source", Str "january.pdf") ];
      [ ("date", FromJson (JString "2025-01-15"));
        ("amount", FromJson (JNumber "45.23"));
        ("card", Str "Chase-2040");
        ("source", Str "january.pdf") ] ] = (a ++ b)%list
    /\ Forall (fun d =>
                 dict_get "card" d = Some (Str "Chase-2040")
                 /\ exists files pdf_file name,
                      one_statement "PDF/2040" = Some files
                      /\ In (pdf_file, name) files
                      /\ dict_get "source" d = Some (Str name)) a
    /\ Forall (fun d =>
                 dict_get "card" d = Some (Str "Chase-7557")
                 /\ exists files pdf_file name,
                      one_statement "PDF/7557" = Some files
                      /\ In (pdf_file, name) files
                      /\ dict_get "source" d = Some (Str name)) b.
Proof.
  apply (collected_transactions_are_tagged purchase_service Json.loads
           one_statement (mkSession 0 [])
           (snd (process_all_pdfs purchase_service Json.loads one_statement
                   (mkSession 0 [])))).
  vm_compute. reflexivity.
Defined.

(* ===================================================================== *)
(** ** The sort and the rows of the saved file *)
(* ===================================================================== *)

Lemma string_leb_refl (a : string) : String.leb a a = true.
Proof.
  destruct (String.leb_total a a) as [H|H]; exact H.
Qed.

Lemma string_leb_trans (a b c : string) :
  String.leb a b = true -> String.leb b c = true -> String.leb a c = true.
Proof.
  unfold String.leb. revert b c.
  induction a as [|x a IH]; intros [|y b] [|z c]; cbn [String.compare];
    try (intros; reflexivity); try discriminate.
  unfold Ascii.compare.
  destruct (N.compare_spec (N_of_ascii x) (N_of_ascii y)) as [E1|L1|G1];
    destruct (N.compare_spec (N_of_ascii y) (N_of_ascii z)) as [E2|L2|G2];
    destruct (N.compare_spec (N_of_ascii x) (N_of_ascii z)) as [E3|L3|G3];
    try discriminate; try (intros; reflexivity); try lia.
  apply IH.
Qed.

Lemma insert_keyed_perm (x : string * dict) (l : list (string * dict)) :
  Permutation (x :: l) (insert_keyed x l).
Proof.
  induction l as [|y l IH]; cbn [insert_keyed]; [reflexivity|].
  destruct (String.leb (fst x) (fst y)); [reflexivity|].
  rewrite perm_swap. now constructor.
Qed.

Lemma sort_keyed_perm (l : list (string * dict)) :
  Permutation l (sort_keyed l).
Proof.
  unfold sort_keyed. induction l as [|x l IH]; cbn [fold_right]; [constructor|].
  rewrite <- insert_keyed_perm. now constructor.
Qed.

Lemma insert_keyed_sorted (x : string * dict) (l : list (string * dict)) :
  StronglySorted string_le (map fst l) ->
  StronglySorted string_le (map fst (insert_keyed x l)).
Proof.
  induction l as [|y l IH]; cbn [insert_keyed map]; intros Hs.
  - repeat constructor.
  - apply StronglySorted_inv in Hs as [Hs Hy].
    destruct (String.leb (fst x) (fst y)) eqn:E; cbn [map].
    + constructor; [now constructor|].
      constructor; [exact E|].
      eapply Forall_impl; [|exact Hy].
      intros k Hk. now apply (string_leb_trans _ (fst y)).
    + constructor; [now apply IH|].
      apply (Permutation_Forall
               (Permutation_map fst (insert_keyed_perm x l))).
      cbn [map]. constructor; [|exact Hy].
      destruct (String.leb_total (fst x) (fst y)) as [H|H];
        [congruence | exact H].
Qed.

Lemma sort_keyed_sorted (l : list (string * dict)) :
  StronglySorted string_le (map fst (sort_keyed l)).
Proof.
  unfold sort_keyed. induction l as [|x l IH]; cbn [fold_right].
  - constructor.
  - now apply insert_keyed_sorted.
Qed.

Lemma insert_keyed_stable (k : string) (x : string * dict)
  (l : list (string * dict)) :
  filter (fun p => String.eqb (fst p) k) (insert_keyed x l)
  = filter (fun p => String.eqb (fst p) k) (x :: l).
Proof.
  induction l as [|y l IH]; cbn [insert_keyed]; [reflexivity|].
  destruct (String.leb (fst x) (fst y)) eqn:E; [reflexivity|].
  cbn [filter] in IH |- *. rewrite IH.
  destruct (String.eqb_spec (fst x) k) as [Hx|Hx]; [|reflexivity].
  destruct (String.eqb_spec (fst y) k) as [Hy|Hy]; [|reflexivity].
  rewrite Hx, Hy, string_leb_refl in E. discriminate E.
Qed.

Lemma sort_keyed_stable (k : string) (l : list (string * dict)) :
  filter (fun p => String.eqb (fst p) k) (sort_keyed l)
  = filter (fun p => String.eqb (fst p) k) l.
Proof.
  unfold sort_keyed. induction l as [|x l IH]; cbn [fold_right];
    [reflexivity|].
  rewrite insert_keyed_stable. cbn [filter]. now rewrite IH.
Qed.

Lemma keyed_spec (transactions : list dict) (ks : list (string * dict)) :
  keyed transactions = Some ks <->
  map snd ks = transactions /\ keyed_by_date ks.
Proof.
  unfold keyed_by_date. revert ks.
  induction transactions as [|x l IH]; intros ks; cbn [keyed].
  - split.
    + intros H. injection H as <-. split; constructor.
    + intros [H _]. destruct ks; [reflexivity | discriminate H].
  - split.
    + destruct (str_of (date_key x)) as [k|] eqn:Ek; [|discriminate].
      destruct (keyed l) as [ks'|]; [|discriminate].
      intros H. injection H as <-.
      destruct (proj1 (IH ks') eq_refl) as [Hm Hf]. cbn [map snd].
      split; [now rewrite Hm | constructor; [exact Ek | exact Hf]].
    + intros [Hm Hf]. destruct ks as [|[k y] ks]; [discriminate Hm|].
      cbn [map snd] in Hm. injection Hm as -> Hm.
      apply Forall_cons_iff in Hf as [Hk Hf]. cbn [fst snd] in Hk.
      rewrite Hk, (proj2 (IH ks) (conj Hm Hf)). reflexivity.
Qed.

Lemma sort_by_date_keyed (transactions : list dict)
  (ks : list (string * dict)) :
  keyed transactions = Some ks ->
  sort_by_date transactions = Some (map snd (sort_keyed ks)).
Proof.
  intros Hk. unfold sort_by_date.
  destruct transactions as [|x [|y l]].
  - cbn in Hk. injection Hk as <-. reflexivity.
  - apply keyed_spec in Hk as [Hm _].
    destruct ks as [|p [|q ks]]; try discriminate Hm.
    cbn in Hm |- *. exact (f_equal Some (eq_sym Hm)).
  - rewrite Hk. reflexivity.
Qed.

Lemma filter_keyed (k : string) (l : list (string * dict)) :
  keyed_by_date l ->
  filter (has_date k) (map snd l)
  = map snd (filter (fun p => String.eqb (fst p) k) l).
Proof.
  unfold keyed_by_date.
  induction 1 as [|p l Hp _ IH]; cbn [map filter]; [reflexivity|].
  unfold has_date at 1. rewrite Hp.
  destruct (String.eqb (fst p) k); cbn [map]; now rewrite IH.
Qed.

(** X22. The sort of [save_to_csv] on transactions whose dates are all
    texts (a missing date counting as the empty text): the result holds
    the same transactions, in the order of their dates compared character
    by character, and transactions of one date keep the order in which
    they came. *)
Theorem sort_by_date_is_stable
  (transactions : list dict) (ks : list (string * dict)) :
  keyed transactions = Some ks ->
  exists sorted ks',
    sort_by_date transactions = Some sorted
    /\ Permutation transactions sorted
    /\ keyed sorted = Some ks'
    /\ StronglySorted string_le (map fst ks')
    /\ forall k,
         filter (has_date k) sorted = filter (has_date k) transactions.
Proof.
  intros Hk. exists (map snd (sort_keyed ks)), (sort_keyed ks).
  pose proof (proj1 (keyed_spec _ _) Hk) as [Hm Hf].
  assert (Hf' : keyed_by_date (sort_keyed ks)).
  { exact (Permutation_Forall (sort_keyed_perm ks) Hf). }
  split; [now apply sort_by_date_keyed|].
  split; [rewrite <- Hm; apply Permutation_map, sort_keyed_perm|].
  split; [apply keyed_spec; now split|].
  split; [apply sort_keyed_sorted|].
  intros k. rewrite <- Hm, !filter_keyed by assumption.
  now rewrite sort_keyed_stable.
Qed.

Lemma sort_by_date_is_stable_witness :
  exists sorted ks',
    sort_by_date three_purchases = Some sorted
    /\ Permutation three_purchases sorted
    /\ keyed sorted = Some ks'
    /\ StronglySorted string_le (map fst ks')
    /\ forall k,
         filter (has_date k) sorted = filter (has_date k) three_purchases.
Proof.
  apply (sort_by_date_is_stable three_purchases
           (map (fun x => (match str_of (date_key x) with
                           | Some k => k
                           | None => EmptyString
                           end, x)) three_purchases)).
  vm_compute. reflexivity.
Defined.

(** The dates of the three purchases after the sort: the undated one
    first, the two of one day in the order in which they came. *)
Example three_purchases_sorted :
  option_map (map (fun d => cell d "amount")) (sort_by_date three_purchases)
  = Some [ FromJson (JNumber "0"); FromJson (JNumber "1");
           FromJson (JNumber "2"); FromJson (JNumber "3") ].
Proof. vm_compute. reflexivity. Qed.

Lemma dict_to_list_spec (rowdict : dict) :
  dict_to_list rowdict
  = if known_keys rowdict then Some (row rowdict) else None.
Proof. reflexivity. Qed.

Lemma writerows_spec (rowdicts : list dict) :
  if forallb known_keys rowdicts
  then writerows rowdicts = (map row rowdicts, true)
  else exists good bad rest,
         rowdicts = (good ++ bad :: rest)%list
         /\ forallb known_keys good = true
         /\ known_keys bad = false
         /\ writerows rowdicts = (map row good, false).
Proof.
  induction rowdicts as [|d l IH]; cbn [forallb writerows]; [reflexivity|].
  rewrite dict_to_list_spec.
  destruct (known_keys d) eqn:Ed; cbn [andb].
  - destruct (forallb known_keys l).
    + rewrite IH. reflexivity.
    + destruct IH as (good & bad & rest & -> & Hg & Hb & ->).
      exists (d :: good), bad, rest. cbn [forallb map]. rewrite Ed, Hg.
      now repeat split.
  - exists [], d, l. now repeat split.
Qed.

Lemma forallb_perm (A : Type) (f : A -> bool) (l l' : list A) :
  Permutation l l' -> forallb f l = forallb f l'.
Proof.
  induction 1 as [|x l l' _ IH|x y l|l l' l'' _ IH1 _ IH2]; cbn [forallb].
  - reflexivity.
  - now rewrite IH.
  - now rewrite !andb_assoc, (andb_comm (f y)).
  - now rewrite IH1.
Qed.

Lemma sort_by_date_perm (transactions sorted : list dict) :
  sort_by_date transactions = Some sorted ->
  Permutation transactions sorted.
Proof.
  unfold sort_by_date. destruct transactions as [|x [|y l]].
  - intros H. injection H as <-. constructor.
  - intros H. injection H as <-. reflexivity.
  - destruct (keyed (x :: y :: l)) as [ks|] eqn:Hk; [|discriminate].
    cbn [option_map]. intros H. injection H as <-.
    apply keyed_spec in Hk as [<- _].
    apply Permutation_map, sort_keyed_perm.
Qed.

(** X23. The rows that [save_to_csv] hands to the writer, for
    transactions that it can sort: the header, then the sorted
    transactions, each as its six cells in the order of the field names,
    an empty text where a key is missing.  A key that is no field name
    stops the writer with [ValueError]: the rows of the transactions
    sorted before the first such one are handed over, nothing after. *)
Theorem rows_handed_to_the_writer (transactions sorted : list dict) :
  transactions <> [] ->
  sort_by_date transactions = Some sorted ->
  if forallb known_keys transactions
  then save_to_csv transactions
       = Some (Handed (map Str fieldnames :: map row sorted))
  else exists good bad rest,
         sorted = (good ++ bad :: rest)%list
         /\ forallb known_keys good = true
         /\ known_keys bad = false
         /\ save_to_csv transactions
            = Some (HandedThenValueError
                      (map Str fieldnames :: map row good)).
Proof.
  intros Hne Hsort.
  rewrite (forallb_perm _ known_keys _ _ (sort_by_date_perm _ _ Hsort)).
  unfold save_to_csv.
  destruct transactions as [|x l]; [now elim Hne|].
  rewrite Hsort. pose proof (writerows_spec sorted) as Hw.
  destruct (forallb known_keys sorted).
  - rewrite Hw. reflexivity.
  - destruct Hw as (good & bad & rest & -> & Hg & Hb & ->).
    exists good, bad, rest. now repeat split.
Qed.

Lemma rows_handed_to_the_writer_witness :
  save_to_csv three_purchases
  = Some (Handed
            (map Str fieldnames
             :: map row
                  [ [ ("amount", FromJson (JNumber "0")) ];
                    [ ("date", FromJson (JString "2025-01-15"));
                      ("amount", FromJson (JNumber "1")) ];
                    [ ("date", FromJson (JString "2025-01-15"));
                      ("amount", FromJson (JNumber "2")) ];
                    [ ("date", FromJson (JString "2025-01-16"));
                      ("amount", FromJson (JNumber "3")) ] ])).
Proof.
  refine (rows_handed_to_the_writer three_purchases _ _ _).
  - discriminate.
  - vm_compute. reflexivity.
Defined.

Section StatementsSaved.

Variable generate_content : string -> nat -> string.
Variable json_loads : string -> option json.
Variable pdf_files : string -> option (list (string * string)).



End StatementsSaved.


(** A member that the prompt did not ask for stops the save after the
    header. *)
Example noted_purchase_is_not_saved :
  option_map save_to_csv
    (match fst (process_all_pdfs noting_service Json.loads one_statement
                  (mkSession 0 [])) with
     | Collected all_transactions => Some all_transactions
     | TypeErrorRaised => None
     end)
  = Some (Some (HandedThenValueError [ map Str fieldnames ])).
Proof. vm_compute. reflexivity. Qed.
